(** * Point trace editor: the editing model of [point_trace_editor.py]

    The class [PointTraceEditor] keeps an ordered list of pixel points, a
    drag state and the last mouse position; its Tk callbacks mutate them.
    This file embeds the callbacks and the hit tests as functions over an
    explicit state record and proves the properties of the geometric
    editing model.

    Numbers.  Tk delivers [event.x] and [event.y] as Python ints, and the
    trace only ever stores such pairs, so coordinates are [Z] and int
    arithmetic is exact.  The point test takes [n ** 0.5] of an int [n]:
    that distance is kept as its radicand, on which the comparison with
    the int radius is exact.  The segment distance is computed in doubles:
    the true division, the products and sums with the projection, the
    squares and the square root are the binary64 operations of
    [PrimFloat], each correctly rounded; the C library's [pow] behind
    [** 2] and [** 0.5] is taken as correctly rounded.  The ints that are
    converted are far below [2 ^ 53] on pixel coordinates, where the
    conversion is exact.

    Widgets.  [redraw_canvas] and [update_terminal] only read the model
    state and write to the canvas and the text widget: the editor record
    carries neither, and [Window] pairs it with what the two functions
    write.  The status line is kept, as the string the callback stores in
    it. *)

From Stdlib Require Import Floats.
From Stdlib Require Import ZArith QArith Qreals Reals List String Ascii Bool.
From Stdlib Require Import Lia Lra Psatz DecimalString DecimalPos DecimalZ.
Import ListNotations.

(* ------------------------------------------------------------------ *)
(** ** Exceptions *)

Inductive exn : Type := IndexError | TypeError | ZeroDivisionError.

Inductive result (A : Type) : Type :=
| Ok (a : A)
| Raise (e : exn).
Arguments Ok {A} a.
Arguments Raise {A} e.

Definition bind {A B : Type} (m : result A) (k : A -> result B) : result B :=
  match m with
  | Ok a => k a
  | Raise e => Raise e
  end.

Notation "x <- m ;; k" := (bind m (fun x => k))
  (at level 61, m at next level, right associativity).

(* ------------------------------------------------------------------ *)
(** ** Numbers *)

(** The value of [v ** 0.5], kept as its radicand. *)
Record root : Type := Root { radicand : Q }.

Definition pow_half (v : Q) : root := Root v.

(** The real number a [root] stands for. *)
Definition root_val (d : root) : R := sqrt (Q2R (radicand d)).

(** The comparison [d <= r] of a distance with an int threshold. *)
Definition root_le_int (d : root) (r : Z) : bool :=
  (0 <=? r)%Z && Qle_bool (radicand d) (inject_Z (r * r)).

(** *** Doubles *)

(** [float(z)], correctly rounded. *)
Definition of_int (z : Z) : float :=
  SF2Prim (binary_normalize prec emax z 0 false).

(** A number of [point_to_line_distance]: an int or a float. *)
Inductive number : Type :=
| Int (z : Z)
| Float (f : float).

(** The float an operation on mixed operands works with. *)
Definition to_float (a : number) : float :=
  match a with
  | Int z => of_int z
  | Float f => f
  end.

(** [a < b] and [a <= b]. *)
Definition num_lt (a b : number) : bool :=
  match a, b with
  | Int x, Int y => (x <? y)%Z
  | _, _ => PrimFloat.ltb (to_float a) (to_float b)
  end.

Definition num_le (a b : number) : bool :=
  match a, b with
  | Int x, Int y => (x <=? y)%Z
  | _, _ => PrimFloat.leb (to_float a) (to_float b)
  end.

(** [a + b], [a - b] and [a * b]: on two ints an int, else a float. *)
Definition num_add (a b : number) : number :=
  match a, b with
  | Int x, Int y => Int (x + y)
  | _, _ => Float (to_float a + to_float b)
  end.

Definition num_sub (a b : number) : number :=
  match a, b with
  | Int x, Int y => Int (x - y)
  | _, _ => Float (to_float a - to_float b)
  end.

Definition num_mul (a b : number) : number :=
  match a, b with
  | Int x, Int y => Int (x * y)
  | _, _ => Float (to_float a * to_float b)
  end.

(** [a ** 2]. *)
Definition num_pow_2 (a : number) : number :=
  match a with
  | Int x => Int (x ^ 2)
  | Float f => Float (f * f)
  end.

(** [a ** 0.5], always a float. *)
Definition num_pow_half (a : number) : float := PrimFloat.sqrt (to_float a).

(** The double that [n ** 0.5] is, for a [root] of an int [n]. *)
Definition root_double (d : root) : float :=
  match Qden (radicand d) with
  | 1%positive => num_pow_half (Int (Qnum (radicand d)))
  | den => PrimFloat.sqrt (of_int (Qnum (radicand d)) / of_int (Zpos den))
  end.

(** [a / b] on two ints. *)
Definition truediv (a b : Z) : result float :=
  if (b =? 0)%Z then Raise ZeroDivisionError
  else Ok (of_int a / of_int b)%float.

(** The builtins [min(a, b)] and [max(a, b)]: the second argument is
    taken when it is smaller, respectively greater, and else the first. *)
Definition py_min (a b : number) : number := if num_lt b a then b else a.
Definition py_max (a b : number) : number := if num_lt a b then b else a.

(** [str] of an int, as an f-string renders it. *)
Definition str (z : Z) : string := NilZero.string_of_int (Z.to_int z).

(* ------------------------------------------------------------------ *)
(** ** Lists, as the callbacks use them *)

Definition point : Type := (Z * Z)%type.

(** [l[i] = v] for [i >= 0]. *)
Definition list_setitem {A : Type} (l : list A) (i : nat) (v : A)
  : result (list A) :=
  if (i <? List.length l)%nat then Ok (firstn i l ++ v :: skipn (S i) l)
  else Raise IndexError.

(** [l.insert(i, v)] for [i >= 0]: past the end it appends. *)
Definition list_insert {A : Type} (l : list A) (i : nat) (v : A) : list A :=
  firstn i l ++ v :: skipn i l.

(** [l.pop(i)] for [i >= 0]. *)
Definition list_pop {A : Type} (l : list A) (i : nat) : result (A * list A) :=
  match nth_error l i with
  | Some v => Ok (v, firstn i l ++ skipn (S i) l)
  | None => Raise IndexError
  end.

(** [sep.join(l)]. *)
Fixpoint join (sep : string) (l : list string) : string :=
  match l with
  | [] => EmptyString
  | [s] => s
  | s :: rest => (s ++ sep ++ join sep rest)%string
  end.

(** [s.lower()] on ASCII. *)
Definition lower_ascii (c : ascii) : ascii :=
  let n := nat_of_ascii c in
  if ((65 <=? n) && (n <=? 90))%nat then ascii_of_nat (n + 32) else c.

Fixpoint lower (s : string) : string :=
  match s with
  | EmptyString => EmptyString
  | String c rest => String (lower_ascii c) (lower rest)
  end.

(* ------------------------------------------------------------------ *)
(** ** The editor state *)

Record PointTraceEditor : Type := mkEditor {
  points : list point;
  dragging : bool;
  drag_point_index : option nat;
  drag_start_x : Z;
  drag_start_y : Z;
  mouse_x : Z;
  mouse_y : Z;
  status_var : string
}.

(** [self.point_radius], set once in [__init__] and never written again. *)
Definition point_radius : Z := 3.

(** The state [__init__] leaves. *)
Definition init : PointTraceEditor := {|
  points := [];
  dragging := false;
  drag_point_index := None;
  drag_start_x := 0;
  drag_start_y := 0;
  mouse_x := 0;
  mouse_y := 0;
  status_var :=
    "Click: place/drag points or insert on lines, 'd': delete point near cursor"
|}.

Definition set_points (self : PointTraceEditor) (pts : list point) :=
  mkEditor pts (dragging self) (drag_point_index self) (drag_start_x self)
    (drag_start_y self) (mouse_x self) (mouse_y self) (status_var self).

Definition set_status (self : PointTraceEditor) (msg : string) :=
  mkEditor (points self) (dragging self) (drag_point_index self)
    (drag_start_x self) (drag_start_y self) (mouse_x self) (mouse_y self) msg.

Definition set_drag (self : PointTraceEditor) (d : bool) (i : option nat) :=
  mkEditor (points self) d i (drag_start_x self) (drag_start_y self)
    (mouse_x self) (mouse_y self) (status_var self).

Definition set_drag_start (self : PointTraceEditor) (x y : Z) :=
  mkEditor (points self) (dragging self) (drag_point_index self) x y
    (mouse_x self) (mouse_y self) (status_var self).

Definition set_mouse (self : PointTraceEditor) (x y : Z) :=
  mkEditor (points self) (dragging self) (drag_point_index self)
    (drag_start_x self) (drag_start_y self) x y (status_var self).

(* ------------------------------------------------------------------ *)
(** ** Hit tests *)

(** The expression [((x - px) ** 2 + (y - py) ** 2) ** 0.5]. *)
Definition distance (x y px py : Z) : root :=
  pow_half (inject_Z ((x - px) ^ 2 + (y - py) ^ 2)).

Definition click_radius : Z := point_radius + 5.

(** The loop of [find_point_at_position], [i] being the index that
    [enumerate] has reached. *)
Fixpoint find_point_from (i : nat) (pts : list point) (x y : Z) : option nat :=
  match pts with
  | [] => None
  | (px, py) :: rest =>
      if root_le_int (distance x y px py) click_radius then Some i
      else find_point_from (S i) rest x y
  end.

Definition find_point_at_position (self : PointTraceEditor) (x y : Z)
  : option nat :=
  find_point_from 0 (points self) x y.

Definition point_to_line_distance (px py x1 y1 x2 y2 : Z) : result float :=
  if ((x1 =? x2) && (y1 =? y2))%Z then
    Ok (num_pow_half (Int ((px - x1) ^ 2 + (py - y1) ^ 2)))
  else
    let line_vec_x := (x2 - x1)%Z in
    let line_vec_y := (y2 - y1)%Z in
    let point_vec_x := (px - x1)%Z in
    let point_vec_y := (py - y1)%Z in
    let line_length_squared := (line_vec_x ^ 2 + line_vec_y ^ 2)%Z in
    let dot_product_point_line :=
      (point_vec_x * line_vec_x + point_vec_y * line_vec_y)%Z in
    projection <- truediv dot_product_point_line line_length_squared ;;
    let projection := py_max (Int 0) (py_min (Int 1) (Float projection)) in
    let closest_x := num_add (Int x1) (num_mul projection (Int line_vec_x)) in
    let closest_y := num_add (Int y1) (num_mul projection (Int line_vec_y)) in
    Ok (num_pow_half
          (num_add (num_pow_2 (num_sub (Int px) closest_x))
                   (num_pow_2 (num_sub (Int py) closest_y)))).

Definition line_click_tolerance : Z := 5.

(** The loop of [find_line_at_position] over [range(len(points) - 1)],
    [pts] being [points[i:]]. *)
Fixpoint find_line_from (i : nat) (pts : list point) (x y : Z)
  : result (option nat) :=
  match pts with
  | (x1, y1) :: rest =>
      match rest with
      | (x2, y2) :: _ =>
          d <- point_to_line_distance x y x1 y1 x2 y2 ;;
          if num_le (Float d) (Int line_click_tolerance) then Ok (Some i)
          else find_line_from (S i) rest x y
      | [] => Ok None
      end
  | [] => Ok None
  end.

Definition find_line_at_position (self : PointTraceEditor) (x y : Z)
  : result (option nat) :=
  if (List.length (points self) <? 2)%nat then Ok None
  else find_line_from 0 (points self) x y.

(* ------------------------------------------------------------------ *)
(** ** Callbacks *)

Local Open Scope string_scope.

Definition on_canvas_click (self : PointTraceEditor) (x y : Z)
  : result PointTraceEditor :=
  match find_point_at_position self x y with
  | Some clicked_point_index =>
      let self := set_drag self true (Some clicked_point_index) in
      let self := set_drag_start self x y in
      Ok (set_status self
            ("Dragging point " ++ str (Z.of_nat clicked_point_index + 1)))
  | None =>
      line_segment <- find_line_at_position self x y ;;
      match line_segment with
      | Some line_segment =>
          let insert_index := (line_segment + 1)%nat in
          let self :=
            set_points self (list_insert (points self) insert_index (x, y)) in
          Ok (set_status self
                ("Point inserted at position "
                 ++ str (Z.of_nat insert_index + 1)
                 ++ ": (" ++ str x ++ ", " ++ str y ++ ")"))
      | None =>
          let self := set_points self (points self ++ [(x, y)])%list in
          Ok (set_status self
                ("Point " ++ str (Z.of_nat (List.length (points self)))
                 ++ " placed at (" ++ str x ++ ", " ++ str y ++ ")"))
      end
  end.

Definition on_canvas_drag (self : PointTraceEditor) (x y : Z)
  : result PointTraceEditor :=
  match dragging self, drag_point_index self with
  | true, Some i =>
      pts <- list_setitem (points self) i (x, y) ;;
      let self := set_points self pts in
      Ok (set_status self
            ("Moving point " ++ str (Z.of_nat i + 1)
             ++ " to (" ++ str x ++ ", " ++ str y ++ ")"))
  | _, _ => Ok self
  end.

(** With [dragging] set and no index, [self.points[None]] is a
    [TypeError]. *)
Definition on_canvas_release (self : PointTraceEditor) (x y : Z)
  : result PointTraceEditor :=
  if dragging self then
    match drag_point_index self with
    | Some i =>
        pts <- list_setitem (points self) i (x, y) ;;
        let self := set_points self pts in
        let self :=
          set_status self
            ("Point " ++ str (Z.of_nat i + 1)
             ++ " moved to (" ++ str x ++ ", " ++ str y ++ ")") in
        Ok (set_drag self false None)
    | None => Raise TypeError
    end
  else Ok self.

Definition on_mouse_move (self : PointTraceEditor) (x y : Z)
  : result PointTraceEditor :=
  Ok (set_mouse self x y).

Definition delete_point_at_mouse (self : PointTraceEditor)
  : result PointTraceEditor :=
  match find_point_at_position self (mouse_x self) (mouse_y self) with
  | Some point_index =>
      popped <- list_pop (points self) point_index ;;
      let '(deleted_point, pts) := popped in
      let self := set_points self pts in
      Ok (set_status self
            ("Deleted point at (" ++ str (fst deleted_point)
             ++ ", " ++ str (snd deleted_point) ++ ")"))
  | None => Ok (set_status self "No point near mouse cursor to delete")
  end.

Definition on_key_press (self : PointTraceEditor) (keysym : string)
  : result PointTraceEditor :=
  if String.eqb (lower keysym) "d" then delete_point_at_mouse self
  else Ok self.

Definition clear_points (self : PointTraceEditor) : result PointTraceEditor :=
  let self := set_points self [] in
  Ok (set_status self "All points cleared").

(** What a callback asks of the libraries outside the editor. *)
Inductive gui_call : Type :=
| showwarning (title message : string)
| pyperclip_copy (text : string).

(** The list comprehension [[f"({x}, {y})" for x, y in self.points]]. *)
Definition format_point (p : point) : string :=
  "(" ++ str (fst p) ++ ", " ++ str (snd p) ++ ")".

Definition copy_coordinates (self : PointTraceEditor)
  : PointTraceEditor * gui_call :=
  match points self with
  | [] =>
      (self,
       showwarning "No Points" "No points to copy. Place some points first.")
  | _ =>
      let coord_list := join ", " (map format_point (points self)) in
      (set_status self "Coordinates copied to clipboard!",
       pyperclip_copy coord_list)
  end.

(* ------------------------------------------------------------------ *)
(** ** The event loop *)

(** The bindings of [__init__]: [<Button-1>], [<B1-Motion>],
    [<ButtonRelease-1>], [<Motion>], [<Key>] on the canvas and the
    commands of the two buttons. *)
Inductive event : Type :=
| Button1 (x y : Z)
| B1Motion (x y : Z)
| ButtonRelease1 (x y : Z)
| Motion (x y : Z)
| Key (keysym : string)
| ClearAllPoints
| CopyCoordinates.

Definition callback (e : event) (self : PointTraceEditor)
  : result PointTraceEditor :=
  match e with
  | Button1 x y => on_canvas_click self x y
  | B1Motion x y => on_canvas_drag self x y
  | ButtonRelease1 x y => on_canvas_release self x y
  | Motion x y => on_mouse_move self x y
  | Key keysym => on_key_press self keysym
  | ClearAllPoints => clear_points self
  | CopyCoordinates => Ok (fst (copy_coordinates self))
  end.

(** A sequence of callbacks, stopping at the first exception. *)
Fixpoint run (es : list event) (self : PointTraceEditor)
  : result PointTraceEditor :=
  match es with
  | [] => Ok self
  | e :: rest => self' <- callback e self ;; run rest self'
  end.

(** Tk reports an exception of a callback and goes on with the next
    event.  Every statement that can raise in a callback is its first
    write to [self], so the state is then the one before the event. *)
Definition step (e : event) (self : PointTraceEditor) : PointTraceEditor :=
  match callback e self with
  | Ok self' => self'
  | Raise _ => self
  end.

Definition mainloop (es : list event) (self : PointTraceEditor)
  : PointTraceEditor :=
  fold_left (fun s e => step e s) es self.

Inductive reachable : PointTraceEditor -> Prop :=
| reachable_init : reachable init
| reachable_step e self : reachable self -> reachable (step e self).

(* ------------------------------------------------------------------ *)
(** * Vocabulary of the properties *)

(** ** Geometry on the real plane *)

(** The Euclidean distance of [(x, y)] and [(u, v)]. *)
Definition euclid (x y u v : R) : R :=
  sqrt ((x - u) * (x - u) + (y - v) * (y - v))%R.

(** The projection parameter [dot(p-a, b-a) / |b-a|^2] as the code
    computes it: the quotient of the two ints, a double. *)
Definition projection_double (px py x1 y1 x2 y2 : Z) : float :=
  (of_int ((px - x1) * (x2 - x1) + (py - y1) * (y2 - y1))
   / of_int ((x2 - x1) ^ 2 + (y2 - y1) ^ 2))%float.


(** ** Hits *)

(** The point [p] lies within [click_radius] (8 px) of [(x, y)]. *)
Definition within_click_radius (x y : Z) (p : point) : Prop :=
  (euclid (IZR x) (IZR y) (IZR (fst p)) (IZR (snd p)) <= 8)%R.

(** The segment from [a] to [b] lies within [line_click_tolerance] (5 px)
    of [(x, y)], by [point_to_line_distance]: the double it returns is at
    most 5. *)
Definition within_line_tolerance (x y : Z) (a b : point) : Prop :=
  exists d,
    point_to_line_distance x y (fst a) (snd a) (fst b) (snd b) = Ok d /\
    PrimFloat.leb d 5 = true.

(** [i] is the lowest index at which [P] holds. *)
Definition first_at (P : nat -> Prop) (i : nat) : Prop :=
  P i /\ forall j, (j < i)%nat -> ~ P j.

(** Point [i] of the trace is within the click radius of [(x, y)]. *)
Definition point_hit_at (pts : list point) (x y : Z) (i : nat) : Prop :=
  exists p, nth_error pts i = Some p /\ within_click_radius x y p.

(** Segment [i] of the trace, from point [i] to point [i + 1], is within
    the line tolerance of [(x, y)]. *)
Definition line_hit_at (pts : list point) (x y : Z) (i : nat) : Prop :=
  exists a b,
    nth_error pts i = Some a /\ nth_error pts (S i) = Some b /\
    within_line_tolerance x y a b.

(** ** The drag state *)

(** The flag [dragging] is set exactly when [drag_point_index] holds an
    index. *)
Definition drag_consistent (self : PointTraceEditor) : Prop :=
  dragging self = true <-> drag_point_index self <> None.

(** The stored drag index, when there is one, is an index of the trace. *)
Definition drag_index_valid (self : PointTraceEditor) : Prop :=
  forall i,
    drag_point_index self = Some i -> (i < List.length (points self))%nat.

(** The events that shrink the trace: the [d] key and the button
    "Clear All Points". *)
Definition deletes_or_clears (e : event) : bool :=
  match e with
  | Key keysym => String.eqb (lower keysym) "d"
  | ClearAllPoints => true
  | _ => false
  end.

(** The states reached when the [d] key and "Clear All Points" are only
    used while no drag is in progress. *)
Inductive reachable_idle_edits : PointTraceEditor -> Prop :=
| idle_edits_init : reachable_idle_edits init
| idle_edits_step e self :
    reachable_idle_edits self ->
    (deletes_or_clears e = true -> dragging self = false) ->
    reachable_idle_edits (step e self).

(** The events of a drag after the press: the pointer moves through
    [moves], then is released at [(rx, ry)]. *)
Definition moves_then_release (moves : list (Z * Z)) (rx ry : Z) : list event :=
  (map (fun p => B1Motion (fst p) (snd p)) moves ++ [ButtonRelease1 rx ry])%list.

(** ** The exported text *)

(** The text the spec describes: each pair in parentheses, the pairs
    separated by a comma and a space, in trace order; nothing for no
    pair. *)
Fixpoint export_format (pts : list point) : string :=
  match pts with
  | [] => ""
  | (x, y) :: rest =>
      let pair := "(" ++ str x ++ ", " ++ str y ++ ")" in
      match rest with
      | [] => pair
      | _ :: _ => pair ++ ", " ++ export_format rest
      end
  end.

(** Reading a rendered int back. *)
Definition int_of_str (s : string) : option Z :=
  option_map Z.of_int (NilZero.int_of_string s).

(** ** Sample sessions *)

(** Two points placed by two clicks, 10 px apart as in the spec's insert
    example, and 20 px apart. *)
Definition two_points_10 : PointTraceEditor :=
  mainloop [Button1 0 0; ButtonRelease1 0 0; Button1 10 0; ButtonRelease1 10 0]
    init.

Definition two_points_20 : PointTraceEditor :=
  mainloop [Button1 0 0; ButtonRelease1 0 0; Button1 20 0; ButtonRelease1 20 0]
    init.

(** Two points whose segment passes exactly 5 px from the pixel (10,11). *)
Definition two_points_10_24 : PointTraceEditor :=
  mainloop [Button1 0 0; ButtonRelease1 0 0; Button1 10 24; ButtonRelease1 10 24]
    init.

(** The pointer is held down on the only point of the trace: a point is
    placed at (50,50) and pressed again. *)
Definition held_point : PointTraceEditor :=
  mainloop [Motion 50 50; Button1 50 50; ButtonRelease1 50 50; Button1 50 50]
    init.

(* ------------------------------------------------------------------ *)
(** * The widgets *)

(** ** The canvas *)

(** The drawing options [__init__] sets and nothing writes again. *)
Definition point_colour : string := "black".
Definition point_line_colour : string := "black".
Definition point_text_colour : string := "black".
Definition point_dragging_colour : string := "red".

(** The items a redraw creates on the canvas, with the options it
    passes. *)
Inductive canvas_item : Type :=
| create_line (x1 y1 x2 y2 : Z) (fill : string) (width : Z)
| create_oval (x0 y0 x1 y1 : Z) (fill outline : string) (width : Z)
| create_text (x y : Z) (text fill : string) (font : string * Z * string).

(** The loop over [range(len(self.points) - 1)] of [redraw_canvas], [pts]
    being [points[i:]]. *)
Fixpoint draw_lines (pts : list point) : list canvas_item :=
  match pts with
  | (x1, y1) :: rest =>
      match rest with
      | (x2, y2) :: _ =>
          create_line x1 y1 x2 y2 point_line_colour 2 :: draw_lines rest
      | [] => []
      end
  | [] => []
  end.

(** The test [self.dragging and self.drag_point_index == i - 1], for the
    index [i] that [enumerate(self.points, 1)] has reached. *)
Definition is_dragged (self : PointTraceEditor) (i : nat) : bool :=
  dragging self
  && match drag_point_index self with
     | Some k => (k =? i - 1)%nat
     | None => false
     end.

(** The loop over [enumerate(self.points, 1)] of [redraw_canvas]. *)
Fixpoint draw_points_from (self : PointTraceEditor) (i : nat) (pts : list point)
  : list canvas_item :=
  match pts with
  | [] => []
  | (x, y) :: rest =>
      let point_color :=
        if is_dragged self i then point_dragging_colour else point_colour in
      let point_outline := "black" in
      create_oval (x - point_radius) (y - point_radius)
        (x + point_radius) (y + point_radius)
        point_color point_outline (if is_dragged self i then 2 else 1)
      :: create_text (x + 10) (y - 10) (str (Z.of_nat i)) point_text_colour
           ("Arial", 8%Z, "bold")
      :: draw_points_from self (S i) rest
  end.

(** The items on the canvas after [redraw_canvas], in the order they are
    created; [delete("all")] has removed the earlier ones. *)
Definition redraw_canvas (self : PointTraceEditor) : list canvas_item :=
  ((if (1 <? List.length (points self))%nat then draw_lines (points self)
    else [])
   ++ draw_points_from self 1 (points self))%list.

(** ** The text widget *)

Definition newline : string := String "010" "".

(** [s * n] on a string. *)
Fixpoint str_mul (s : string) (n : nat) : string :=
  match n with
  | O => ""
  | S n => s ++ str_mul s n
  end.

(** The rows [f"Point {i}: ({x}, {y})\n"] of [update_terminal]. *)
Fixpoint point_rows_from (i : nat) (pts : list point) : string :=
  match pts with
  | [] => ""
  | (x, y) :: rest =>
      "Point " ++ str (Z.of_nat i) ++ ": (" ++ str x ++ ", " ++ str y ++ ")"
      ++ newline ++ point_rows_from (S i) rest
  end.

(** The text in the widget after [update_terminal]: what it inserts, in
    order, after deleting the old text. *)
Definition update_terminal (self : PointTraceEditor) : string :=
  match points self with
  | [] => "No points placed."
  | _ :: _ =>
      let coord_list := join ", " (map format_point (points self)) in
      "Placed Points:" ++ newline
      ++ str_mul "-" 40 ++ newline
      ++ point_rows_from 1 (points self)
      ++ newline ++ str_mul "=" 40 ++ newline
      ++ "Copy-ready format:" ++ newline
      ++ str_mul "-" 40 ++ newline
      ++ "Coordinates: " ++ coord_list ++ newline ++ newline
  end.

(** ** The callbacks with their widgets *)

(** The editor together with what its canvas and its text widget show.
    The callbacks below are the ones above with the calls of
    [redraw_canvas] and [update_terminal] at their places. *)
Module Window.

Record t : Type := mk {
  editor : PointTraceEditor;
  canvas : list canvas_item;
  terminal_text : string
}.

Definition with_editor (w : t) (self : PointTraceEditor) : t :=
  mk self (canvas w) (terminal_text w).

Definition redraw (w : t) : t :=
  mk (editor w) (redraw_canvas (editor w)) (terminal_text w).

Definition update (w : t) : t :=
  mk (editor w) (canvas w) (update_terminal (editor w)).

(** [__init__] ends with [update_terminal()] and [redraw_canvas()]. *)
Definition init : t := redraw (update (mk init [] "")).

Definition on_canvas_click (w : t) (x y : Z) : result t :=
  let self := editor w in
  match find_point_at_position self x y with
  | Some clicked_point_index =>
      let self := set_drag self true (Some clicked_point_index) in
      let self := set_drag_start self x y in
      Ok (with_editor w
            (set_status self
               ("Dragging point " ++ str (Z.of_nat clicked_point_index + 1))))
  | None =>
      line_segment <- find_line_at_position self x y ;;
      match line_segment with
      | Some line_segment =>
          let insert_index := (line_segment + 1)%nat in
          let w :=
            with_editor w
              (set_points self (list_insert (points self) insert_index (x, y))) in
          let w := redraw w in
          let w := update w in
          Ok (with_editor w
                (set_status (editor w)
                   ("Point inserted at position "
                    ++ str (Z.of_nat insert_index + 1)
                    ++ ": (" ++ str x ++ ", " ++ str y ++ ")")))
      | None =>
          let w := with_editor w (set_points self (points self ++ [(x, y)])%list) in
          let w := redraw w in
          let w := update w in
          Ok (with_editor w
                (set_status (editor w)
                   ("Point " ++ str (Z.of_nat (List.length (points (editor w))))
                    ++ " placed at (" ++ str x ++ ", " ++ str y ++ ")")))
      end
  end.

Definition on_canvas_drag (w : t) (x y : Z) : result t :=
  let self := editor w in
  match dragging self, drag_point_index self with
  | true, Some i =>
      pts <- list_setitem (points self) i (x, y) ;;
      let w := with_editor w (set_points self pts) in
      let w := redraw w in
      Ok (with_editor w
            (set_status (editor w)
               ("Moving point " ++ str (Z.of_nat i + 1)
                ++ " to (" ++ str x ++ ", " ++ str y ++ ")")))
  | _, _ => Ok w
  end.

Definition on_canvas_release (w : t) (x y : Z) : result t :=
  let self := editor w in
  if dragging self then
    match drag_point_index self with
    | Some i =>
        pts <- list_setitem (points self) i (x, y) ;;
        let w := with_editor w (set_points self pts) in
        let w := redraw w in
        let w := update w in
        let w :=
          with_editor w
            (set_status (editor w)
               ("Point " ++ str (Z.of_nat i + 1)
                ++ " moved to (" ++ str x ++ ", " ++ str y ++ ")")) in
        Ok (with_editor w (set_drag (editor w) false None))
    | None => Raise TypeError
    end
  else Ok w.

Definition on_mouse_move (w : t) (x y : Z) : result t :=
  Ok (with_editor w (set_mouse (editor w) x y)).

Definition delete_point_at_mouse (w : t) : result t :=
  let self := editor w in
  match find_point_at_position self (mouse_x self) (mouse_y self) with
  | Some point_index =>
      popped <- list_pop (points self) point_index ;;
      let '(deleted_point, pts) := popped in
      let w := with_editor w (set_points self pts) in
      let w := redraw w in
      let w := update w in
      Ok (with_editor w
            (set_status (editor w)
               ("Deleted point at (" ++ str (fst deleted_point)
                ++ ", " ++ str (snd deleted_point) ++ ")")))
  | None =>
      Ok (with_editor w (set_status self "No point near mouse cursor to delete"))
  end.

Definition on_key_press (w : t) (keysym : string) : result t :=
  if String.eqb (lower keysym) "d" then delete_point_at_mouse w
  else Ok w.

Definition clear_points (w : t) : result t :=
  let w := with_editor w (set_points (editor w) []) in
  let w := redraw w in
  let w := update w in
  Ok (with_editor w (set_status (editor w) "All points cleared")).

Definition copy_coordinates (w : t) : t * gui_call :=
  (with_editor w (fst (copy_coordinates (editor w))),
   snd (copy_coordinates (editor w))).

Definition callback (e : event) (w : t) : result t :=
  match e with
  | Button1 x y => on_canvas_click w x y
  | B1Motion x y => on_canvas_drag w x y
  | ButtonRelease1 x y => on_canvas_release w x y
  | Motion x y => on_mouse_move w x y
  | Key keysym => on_key_press w keysym
  | ClearAllPoints => clear_points w
  | CopyCoordinates => Ok (fst (copy_coordinates w))
  end.

(** As [step]: an exception leaves the window as it was, every statement
    that can raise being the first write of its callback. *)
Definition step (e : event) (w : t) : t :=
  match callback e w with
  | Ok w' => w'
  | Raise _ => w
  end.

Definition mainloop (es : list event) (w : t) : t :=
  fold_left (fun w e => step e w) es w.

Inductive reachable : t -> Prop :=
| reachable_init : reachable init
| reachable_step e w : reachable w -> reachable (step e w).

End Window.

(* ------------------------------------------------------------------ *)
(** * Further vocabulary *)

(** Oval [k] of a redraw is the highlighted one. *)
Definition highlighted (self : PointTraceEditor) (k : nat) : bool :=
  dragging self
  && match drag_point_index self with
     | Some i => (i =? k)%nat
     | None => false
     end.

(** An oval drawn in the dragging colour. *)
Definition is_red_oval (item : canvas_item) : bool :=
  match item with
  | create_oval _ _ _ _ fill _ _ => String.eqb fill point_dragging_colour
  | _ => false
  end.

(** A trace of two points, (0,0) and (100,0), with the pointer held down
    on the first one. *)
Definition held_first_of_two : PointTraceEditor :=
  mainloop
    [Motion 0 0; Button1 0 0; ButtonRelease1 0 0;
     Motion 100 0; Button1 100 0; ButtonRelease1 100 0;
     Motion 0 0; Button1 0 0]
    init.

(** The window with the pointer held down on the only point of the
    trace, at (50,50). *)
Definition held_window : Window.t :=
  Window.mainloop
    [Motion 50 50; Button1 50 50; ButtonRelease1 50 50; Button1 50 50]
    Window.init.

(** The window after that point was dragged over (70,70) and dropped at
    (80,80). *)
Definition dropped_window : Window.t :=
  Window.mainloop [B1Motion 70 70; ButtonRelease1 80 80] held_window.

(** The text widget shows the trace unless a drag is in progress. *)
Definition terminal_current (w : Window.t) : Prop :=
  dragging (Window.editor w) = false ->
  Window.terminal_text w = update_terminal (Window.editor w).

(** The canvas is a redraw of the trace, for some drag state. *)
Definition canvas_current (w : Window.t) : Prop :=
  exists d i,
    Window.canvas w = redraw_canvas (set_drag (Window.editor w) d i).

(** The characters of a rendered int: the digits and the sign. *)
Definition int_char (c : ascii) : bool :=
  let n := nat_of_ascii c in
  ((48 <=? n) && (n <=? 57) || (n =? 45))%nat.

Fixpoint all_chars (P : ascii -> bool) (s : string) : bool :=
  match s with
  | EmptyString => true
  | String c rest => P c && all_chars P rest
  end.

(** The trace [(1,2), (3,4)], built in two ways: set at once, and placed
    by two clicks. *)
Definition trace_1234_set : PointTraceEditor :=
  set_points init [(1, 2); (3, 4)]%Z.

Definition trace_1234_session : PointTraceEditor :=
  mainloop
    [Button1 1 2; ButtonRelease1 1 2; Button1 30 40; ButtonRelease1 30 40;
     Button1 30 40; B1Motion 10 10; ButtonRelease1 3 4]
    init.

(** What follows the first pair in the joined text. *)
Definition after_first (rest : list point) : string :=
  match rest with
  | [] => ""
  | _ :: _ => ", " ++ join ", " (map format_point rest)
  end.


(* ------------------------------------------------------------------ *)
(** * Numbers: what the symbolic distances denote *)

Section Denotation.
Local Open Scope R_scope.

Lemma Q2R_inject_Z (z : Z) : Q2R (inject_Z z) = IZR z.
Proof. unfold Q2R, inject_Z; simpl. field. Qed.

Lemma IZR_sqr (z : Z) : IZR (z ^ 2) = IZR z * IZR z.
Proof. rewrite Z.pow_2_r. apply mult_IZR. Qed.

Lemma Q2R_0 : Q2R 0 = 0.
Proof. unfold Q2R; simpl. lra. Qed.

(** The comparison on radicands decides the comparison of the real
    distances. *)
Lemma root_le_int_spec (d : root) (r : Z) :
  root_le_int d r = true <-> root_val d <= IZR r.
Proof.
  unfold root_le_int, root_val.
  rewrite andb_true_iff, Z.leb_le, Qle_bool_iff.
  split.
  - intros [Hr Hq].
    apply Qle_Rle in Hq. rewrite Q2R_inject_Z, mult_IZR in Hq.
    apply IZR_le in Hr.
    rewrite <- (sqrt_square (IZR r)) by exact Hr.
    apply sqrt_le_1_alt. exact Hq.
  - intros H.
    assert (Hr : 0 <= IZR r) by (pose proof (sqrt_pos (Q2R (radicand d))); lra).
    split; [apply le_IZR; exact Hr|].
    apply Rle_Qle. rewrite Q2R_inject_Z, mult_IZR.
    destruct (Rle_lt_dec 0 (Q2R (radicand d))) as [Hq | Hq].
    + rewrite <- (sqrt_sqrt (Q2R (radicand d))) by exact Hq.
      pose proof (sqrt_pos (Q2R (radicand d))). nra.
    + nra.
Qed.

Lemma root_val_lt (q1 q2 : Q) :
  (0 <= q1)%Q -> (q1 < q2)%Q -> root_val (Root q1) < root_val (Root q2).
Proof.
  intros H0 Hlt. unfold root_val; cbn [radicand].
  apply Qle_Rle in H0. rewrite Q2R_0 in H0. apply Qlt_Rlt in Hlt.
  apply sqrt_lt_1_alt. split; assumption.
Qed.

(** [distance] is the Euclidean distance. *)
Lemma distance_val (x y px py : Z) :
  root_val (distance x y px py) = euclid (IZR x) (IZR y) (IZR px) (IZR py).
Proof.
  unfold root_val, distance, euclid, pow_half; cbn [radicand].
  rewrite Q2R_inject_Z, plus_IZR, !IZR_sqr, !minus_IZR. reflexivity.
Qed.

End Denotation.

(* ------------------------------------------------------------------ *)
(** * The distance to a segment *)

Lemma length_squared_zero (x1 y1 x2 y2 : Z) :
  ((x2 - x1) ^ 2 + (y2 - y1) ^ 2 = 0 <-> x1 = x2 /\ y1 = y2)%Z.
Proof.
  rewrite !Z.pow_2_r. split.
  - intros H.
    pose proof (Z.square_nonneg (x2 - x1)) as Hx.
    pose proof (Z.square_nonneg (y2 - y1)) as Hy.
    assert (Hx0 : ((x2 - x1) * (x2 - x1) = 0)%Z) by lia.
    assert (Hy0 : ((y2 - y1) * (y2 - y1) = 0)%Z) by lia.
    apply Z.mul_eq_0 in Hx0, Hy0. lia.
  - intros [-> ->]. rewrite !Z.sub_diag. reflexivity.
Qed.

Lemma degenerate_test (x1 y1 x2 y2 : Z) :
  ((x1 =? x2) && (y1 =? y2))%Z = true <-> x1 = x2 /\ y1 = y2.
Proof. rewrite andb_true_iff, !Z.eqb_eq. reflexivity. Qed.

Lemma degenerate_dec (x1 y1 x2 y2 : Z) :
  {x1 = x2 /\ y1 = y2} + {~ (x1 = x2 /\ y1 = y2)}.
Proof.
  destruct (Z.eq_dec x1 x2) as [Hx | Hx]; [|right; intros [H _]; contradiction].
  destruct (Z.eq_dec y1 y2) as [Hy | Hy]; [|right; intros [_ H]; contradiction].
  left. split; assumption.
Qed.

(** The double of the distance expression of the point test. *)
Lemma root_double_distance (x y px py : Z) :
  root_double (distance x y px py)
  = num_pow_half (Int ((x - px) ^ 2 + (y - py) ^ 2)).
Proof. reflexivity. Qed.

Lemma point_to_line_distance_degenerate (px py x1 y1 : Z) :
  point_to_line_distance px py x1 y1 x1 y1
  = Ok (root_double (distance px py x1 y1)).
Proof.
  unfold point_to_line_distance. rewrite !Z.eqb_refl. reflexivity.
Qed.

(** What the clamp [max(0, min(1, t))] returns: the int 1 unless [t < 1],
    the int 0 unless [0 < t], and else the float [t]. *)
Lemma clamp_cases (t : float) :
  py_max (Int 0) (py_min (Int 1) (Float t))
  = if PrimFloat.ltb t 1 then (if PrimFloat.ltb 0 t then Float t else Int 0)
    else Int 1.
Proof.
  unfold py_min, num_lt. cbn [to_float].
  change (of_int 1) with 1%float.
  destruct (PrimFloat.ltb t 1); [|reflexivity].
  unfold py_max, num_lt. cbn [to_float]. change (of_int 0) with 0%float.
  destruct (PrimFloat.ltb 0 t); reflexivity.
Qed.

(** Off the degenerate case: the steps of the second branch, on the
    projection the division returns. *)
Lemma point_to_line_distance_proper (px py x1 y1 x2 y2 : Z) :
  ~ (x1 = x2 /\ y1 = y2) ->
  let t := projection_double px py x1 y1 x2 y2 in
  point_to_line_distance px py x1 y1 x2 y2
  = Ok (if PrimFloat.ltb t 1 then
          if PrimFloat.ltb 0 t then
            PrimFloat.sqrt
              ((of_int px - (of_int x1 + t * of_int (x2 - x1)))
               * (of_int px - (of_int x1 + t * of_int (x2 - x1)))
               + (of_int py - (of_int y1 + t * of_int (y2 - y1)))
                 * (of_int py - (of_int y1 + t * of_int (y2 - y1))))%float
          else root_double (distance px py x1 y1)
        else root_double (distance px py x2 y2)).
Proof.
  intros Hne t. unfold point_to_line_distance, truediv.
  destruct ((x1 =? x2) && (y1 =? y2))%Z eqn:E.
  { apply degenerate_test in E. contradiction. }
  assert (Hlen : ((x2 - x1) ^ 2 + (y2 - y1) ^ 2 <> 0)%Z).
  { intros H. apply length_squared_zero in H. contradiction. }
  apply Z.eqb_neq in Hlen. rewrite Hlen. cbn [bind]. cbv zeta.
  fold (projection_double px py x1 y1 x2 y2). fold t.
  rewrite clamp_cases. rewrite !root_double_distance. f_equal.
  destruct (PrimFloat.ltb t 1); [destruct (PrimFloat.ltb 0 t)|].
  - reflexivity.
  - cbn [num_mul num_add num_sub num_pow_2].
    replace (x1 + 0 * (x2 - x1))%Z with x1 by ring.
    replace (y1 + 0 * (y2 - y1))%Z with y1 by ring.
    reflexivity.
  - cbn [num_mul num_add num_sub num_pow_2].
    replace (x1 + 1 * (x2 - x1))%Z with x2 by ring.
    replace (y1 + 1 * (y2 - y1))%Z with y2 by ring.
    reflexivity.
Qed.

Lemma point_to_line_distance_total (px py x1 y1 x2 y2 : Z) :
  exists d, point_to_line_distance px py x1 y1 x2 y2 = Ok d.
Proof.
  destruct (degenerate_dec x1 y1 x2 y2) as [[-> ->] | Hne].
  - eexists. apply point_to_line_distance_degenerate.
  - eexists. exact (point_to_line_distance_proper px py x1 y1 x2 y2 Hne).
Qed.

(** C9: [point_to_line_distance] returns a distance on every input and
    never raises.  A division by zero would raise, the divisor
    [|b-a|^2] is zero exactly when [a == b], and on [a == b] the function
    returns the distance to [a] from the first branch, where nothing is
    divided. *)
Theorem point_to_line_distance_defined :
  (forall px py x1 y1 x2 y2 : Z,
      exists d, point_to_line_distance px py x1 y1 x2 y2 = Ok d) /\
  (forall a : Z, truediv a 0 = Raise ZeroDivisionError) /\
  (forall x1 y1 x2 y2 : Z,
      ((x2 - x1) ^ 2 + (y2 - y1) ^ 2 = 0)%Z <-> x1 = x2 /\ y1 = y2) /\
  (forall px py x1 y1 : Z,
      point_to_line_distance px py x1 y1 x1 y1
      = Ok (root_double (distance px py x1 y1))).
Proof.
  split; [exact point_to_line_distance_total|].
  split; [reflexivity|].
  split; [exact length_squared_zero|].
  exact point_to_line_distance_degenerate.
Qed.




(* ------------------------------------------------------------------ *)
(** * The two hit tests *)

Lemma click_test_spec (x y px py : Z) :
  root_le_int (distance x y px py) click_radius = true
  <-> within_click_radius x y (px, py).
Proof.
  rewrite root_le_int_spec, distance_val. unfold within_click_radius.
  reflexivity.
Qed.

Lemma click_test_false (x y px py : Z) :
  root_le_int (distance x y px py) click_radius = false
  <-> ~ within_click_radius x y (px, py).
Proof.
  rewrite <- click_test_spec.
  destruct (root_le_int (distance x y px py) click_radius); split; congruence.
Qed.

Lemma line_test_spec (x y x1 y1 x2 y2 : Z) (d : float) :
  point_to_line_distance x y x1 y1 x2 y2 = Ok d ->
  num_le (Float d) (Int line_click_tolerance) = true
  <-> within_line_tolerance x y (x1, y1) (x2, y2).
Proof.
  intros Hd.
  change (num_le (Float d) (Int line_click_tolerance)) with (PrimFloat.leb d 5).
  unfold within_line_tolerance; cbn [fst snd]. split.
  - intros H. exists d. split; assumption.
  - intros (d' & Hd' & H). rewrite Hd in Hd'. injection Hd' as <-. exact H.
Qed.

Lemma line_test_false (x y x1 y1 x2 y2 : Z) (d : float) :
  point_to_line_distance x y x1 y1 x2 y2 = Ok d ->
  num_le (Float d) (Int line_click_tolerance) = false
  <-> ~ within_line_tolerance x y (x1, y1) (x2, y2).
Proof.
  intros Hd. rewrite <- (line_test_spec _ _ _ _ _ _ _ Hd).
  destruct (num_le (Float d) (Int line_click_tolerance)); split; congruence.
Qed.

(** Hits of a trace and of its tail. *)
Lemma point_hit_at_head (p : point) (rest : list point) (x y : Z) :
  point_hit_at (p :: rest) x y 0 <-> within_click_radius x y p.
Proof.
  unfold point_hit_at; cbn [nth_error]. split.
  - intros (q & [= <-] & H). exact H.
  - intros H. exists p. split; [reflexivity | exact H].
Qed.

Lemma point_hit_at_tail (p : point) (rest : list point) (x y : Z) (i : nat) :
  point_hit_at (p :: rest) x y (S i) <-> point_hit_at rest x y i.
Proof. reflexivity. Qed.

Lemma line_hit_at_head (a b : point) (rest : list point) (x y : Z) :
  line_hit_at (a :: b :: rest) x y 0 <-> within_line_tolerance x y a b.
Proof.
  unfold line_hit_at; cbn [nth_error]. split.
  - intros (a' & b' & [= <-] & [= <-] & H). exact H.
  - intros H. exists a, b. repeat split. exact H.
Qed.

Lemma line_hit_at_tail (a : point) (rest : list point) (x y : Z) (i : nat) :
  line_hit_at (a :: rest) x y (S i) <-> line_hit_at rest x y i.
Proof. reflexivity. Qed.

Lemma line_hit_at_short (pts : list point) (x y : Z) (i : nat) :
  (List.length pts < 2)%nat -> ~ line_hit_at pts x y i.
Proof.
  intros Hlen (a & b & _ & Hb & _).
  assert (S i < List.length pts)%nat by (apply nth_error_Some; congruence).
  lia.
Qed.

(** A first hit of the tail, when the head is no hit, is a first hit of
    the whole one index later; and back. *)
Lemma first_at_shift (P Q : nat -> Prop) :
  ~ P 0%nat -> (forall i, P (S i) <-> Q i) ->
  forall j, first_at P j <-> exists j', j = S j' /\ first_at Q j'.
Proof.
  intros H0 Hshift j. split.
  - intros [Hj Hmin]. destruct j as [| j']; [contradiction|].
    exists j'. split; [reflexivity|]. split; [apply Hshift; exact Hj|].
    intros k Hk HQ. apply (Hmin (S k)); [lia|]. apply Hshift. exact HQ.
  - intros (j' & -> & HQ & Hmin). split; [apply Hshift; exact HQ|].
    intros [| k] Hk HP; [contradiction|].
    apply (Hmin k); [lia|]. apply Hshift. exact HP.
Qed.


Lemma first_at_zero (P : nat -> Prop) :
  P 0%nat -> forall j, first_at P j <-> j = 0%nat.
Proof.
  intros H0 j. split.
  - intros [_ Hmin]. destruct j as [| j]; [reflexivity|].
    exfalso. apply (Hmin 0%nat); [lia | exact H0].
  - intros ->. split; [exact H0|]. intros k Hk. lia.
Qed.

Lemma find_point_from_Some (x y : Z) (pts : list point) :
  forall k i,
    find_point_from k pts x y = Some i <->
    exists j, i = (k + j)%nat /\ first_at (point_hit_at pts x y) j.
Proof.
  induction pts as [| [px py] rest IH]; intros k i; cbn [find_point_from].
  - split; [discriminate|].
    intros (j & _ & (p & Hp & _) & _). destruct j; discriminate.
  - destruct (root_le_int (distance x y px py) click_radius) eqn:E.
    + apply click_test_spec, (point_hit_at_head _ rest) in E. split.
      * intros [= <-]. exists 0%nat. split; [lia|].
        apply first_at_zero; [exact E | reflexivity].
      * intros (j & -> & Hj). apply (first_at_zero _ E) in Hj. subst j.
        f_equal. lia.
    + apply click_test_false in E.
      rewrite <- (point_hit_at_head _ rest) in E. rewrite IH. split.
      * intros (j & -> & Hj). exists (S j). split; [lia|].
        apply (first_at_shift _ (point_hit_at rest x y) E).
        -- intros n. apply point_hit_at_tail.
        -- exists j. split; [reflexivity | exact Hj].
      * intros (j & -> & Hj).
        apply (first_at_shift _ (point_hit_at rest x y) E) in Hj.
        -- destruct Hj as (j' & -> & Hj'). exists j'. split; [lia | exact Hj'].
        -- intros n. apply point_hit_at_tail.
Qed.

Lemma find_point_from_None (x y : Z) (pts : list point) :
  forall k,
    find_point_from k pts x y = None <-> forall i, ~ point_hit_at pts x y i.
Proof.
  induction pts as [| [px py] rest IH]; intros k; cbn [find_point_from].
  - split; [|reflexivity]. intros _ i (p & Hp & _). destruct i; discriminate.
  - destruct (root_le_int (distance x y px py) click_radius) eqn:E.
    + apply click_test_spec, (point_hit_at_head _ rest) in E.
      split; [discriminate|]. intros H. exfalso. exact (H 0%nat E).
    + apply click_test_false in E.
      rewrite <- (point_hit_at_head _ rest) in E. rewrite IH. split.
      * intros H [| i]; [exact E | apply H].
      * intros H i. apply (H (S i)).
Qed.

Lemma find_line_from_unfold (k : nat) (x1 y1 x2 y2 : Z) (rest : list point)
      (x y : Z) (d : float) :
  point_to_line_distance x y x1 y1 x2 y2 = Ok d ->
  find_line_from k ((x1, y1) :: (x2, y2) :: rest) x y =
  if num_le (Float d) (Int line_click_tolerance) then Ok (Some k)
  else find_line_from (S k) ((x2, y2) :: rest) x y.
Proof. intros Hd. cbn [find_line_from]. rewrite Hd. reflexivity. Qed.

Lemma find_line_from_Some (x y : Z) (pts : list point) :
  forall k i,
    find_line_from k pts x y = Ok (Some i) <->
    exists j, i = (k + j)%nat /\ first_at (line_hit_at pts x y) j.
Proof.
  induction pts as [| [x1 y1] rest IH]; intros k i.
  - cbn. split; [discriminate|].
    intros (j & _ & H & _). exfalso. revert H. apply line_hit_at_short. cbn. lia.
  - destruct rest as [| [x2 y2] rest'].
    + cbn. split; [discriminate|].
      intros (j & _ & H & _). exfalso. revert H. apply line_hit_at_short. cbn. lia.
    + destruct (point_to_line_distance_total x y x1 y1 x2 y2) as [d Hd].
      rewrite (find_line_from_unfold _ _ _ _ _ _ _ _ _ Hd).
      destruct (num_le (Float d) (Int line_click_tolerance)) eqn:E.
      * apply (line_test_spec _ _ _ _ _ _ _ Hd), (line_hit_at_head _ _ rest') in E.
        split.
        -- intros [= <-]. exists 0%nat. split; [lia|].
           apply first_at_zero; [exact E | reflexivity].
        -- intros (j & -> & Hj). apply (first_at_zero _ E) in Hj. subst j.
           do 2 f_equal. lia.
      * apply (line_test_false _ _ _ _ _ _ _ Hd) in E.
        rewrite <- (line_hit_at_head _ _ rest') in E. rewrite IH. split.
        -- intros (j & -> & Hj). exists (S j). split; [lia|].
           apply (first_at_shift _ (line_hit_at ((x2, y2) :: rest') x y) E).
           ++ intros n. apply line_hit_at_tail.
           ++ exists j. split; [reflexivity | exact Hj].
        -- intros (j & -> & Hj).
           apply (first_at_shift _ (line_hit_at ((x2, y2) :: rest') x y) E) in Hj.
           ++ destruct Hj as (j' & -> & Hj'). exists j'. split; [lia | exact Hj'].
           ++ intros n. apply line_hit_at_tail.
Qed.

Lemma find_line_from_None (x y : Z) (pts : list point) :
  forall k,
    find_line_from k pts x y = Ok None <-> forall i, ~ line_hit_at pts x y i.
Proof.
  induction pts as [| [x1 y1] rest IH]; intros k.
  - cbn. split; [|reflexivity]. intros _ i. apply line_hit_at_short. cbn. lia.
  - destruct rest as [| [x2 y2] rest'].
    + cbn. split; [|reflexivity]. intros _ i. apply line_hit_at_short. cbn. lia.
    + destruct (point_to_line_distance_total x y x1 y1 x2 y2) as [d Hd].
      rewrite (find_line_from_unfold _ _ _ _ _ _ _ _ _ Hd).
      destruct (num_le (Float d) (Int line_click_tolerance)) eqn:E.
      * apply (line_test_spec _ _ _ _ _ _ _ Hd), (line_hit_at_head _ _ rest') in E.
        split; [discriminate|]. intros H. exfalso. exact (H 0%nat E).
      * apply (line_test_false _ _ _ _ _ _ _ Hd) in E.
        rewrite <- (line_hit_at_head _ _ rest') in E. rewrite IH. split.
        -- intros H [| i]; [exact E | apply H].
        -- intros H i. apply (H (S i)).
Qed.

Lemma find_line_from_total (x y : Z) (pts : list point) :
  forall k, exists r, find_line_from k pts x y = Ok r.
Proof.
  induction pts as [| [x1 y1] rest IH]; intros k.
  - exists None. reflexivity.
  - destruct rest as [| [x2 y2] rest'].
    + exists None. reflexivity.
    + destruct (point_to_line_distance_total x y x1 y1 x2 y2) as [d Hd].
      rewrite (find_line_from_unfold _ _ _ _ _ _ _ _ _ Hd).
      destruct (num_le (Float d) (Int line_click_tolerance)).
      * exists (Some k). reflexivity.
      * apply IH.
Qed.

(** The guard [len(self.points) < 2] returns what the loop would. *)
Lemma find_line_at_position_loop (self : PointTraceEditor) (x y : Z) :
  find_line_at_position self x y = find_line_from 0 (points self) x y.
Proof.
  unfold find_line_at_position.
  destruct (points self) as [| [x1 y1] [| [x2 y2] rest]]; reflexivity.
Qed.

Lemma find_line_at_position_total (self : PointTraceEditor) (x y : Z) :
  exists r, find_line_at_position self x y = Ok r.
Proof. rewrite find_line_at_position_loop. apply find_line_from_total. Qed.

Lemma find_point_at_position_Some (self : PointTraceEditor) (x y : Z) (i : nat) :
  find_point_at_position self x y = Some i <->
  first_at (point_hit_at (points self) x y) i.
Proof.
  unfold find_point_at_position. rewrite find_point_from_Some. split.
  - intros (j & -> & H). exact H.
  - intros H. exists i. split; [reflexivity | exact H].
Qed.

Lemma find_point_at_position_None (self : PointTraceEditor) (x y : Z) :
  find_point_at_position self x y = None <->
  forall i, ~ point_hit_at (points self) x y i.
Proof. apply find_point_from_None. Qed.

Lemma find_line_at_position_Some (self : PointTraceEditor) (x y : Z) (i : nat) :
  find_line_at_position self x y = Ok (Some i) <->
  first_at (line_hit_at (points self) x y) i.
Proof.
  rewrite find_line_at_position_loop, find_line_from_Some. split.
  - intros (j & -> & H). exact H.
  - intros H. exists i. split; [reflexivity | exact H].
Qed.

Lemma find_line_at_position_None (self : PointTraceEditor) (x y : Z) :
  find_line_at_position self x y = Ok None <->
  forall i, ~ line_hit_at (points self) x y i.
Proof. rewrite find_line_at_position_loop. apply find_line_from_None. Qed.

(** A point found is an index of the trace. *)
Lemma find_point_at_position_bound (self : PointTraceEditor) (x y : Z) (i : nat) :
  find_point_at_position self x y = Some i -> (i < List.length (points self))%nat.
Proof.
  intros H. apply find_point_at_position_Some in H.
  destruct H as [(p & Hp & _) _]. apply nth_error_Some. congruence.
Qed.

(** C2: both hit tests return the lowest qualifying index and none when
    no candidate qualifies.  [find_point_at_position] returns the lowest
    [i] with the Euclidean distance from [points[i]] to the target at most
    8, [find_line_at_position] the lowest [i] for which
    [point_to_line_distance], called on the target and the segment
    [points[i]], [points[i+1]], returns a double that is at most 5.  The
    lowest index wins also when a later candidate is closer: the two
    examples have a later point, and a later segment, strictly nearer to
    the target than the one returned.  The segment test is on the double
    returned: (13,0) is 5 px from the segment from (0,0) to (12,5), the
    function returns 5.000000000000001 for it, and no segment is found. *)
Theorem hit_tests_first_match :
  (forall (self : PointTraceEditor) (x y : Z),
      (forall i,
          find_point_at_position self x y = Some i <->
          first_at (point_hit_at (points self) x y) i) /\
      (find_point_at_position self x y = None <->
       forall i, ~ point_hit_at (points self) x y i) /\
      (forall i,
          find_line_at_position self x y = Ok (Some i) <->
          first_at (line_hit_at (points self) x y) i) /\
      (find_line_at_position self x y = Ok None <->
       forall i, ~ line_hit_at (points self) x y i)) /\
  (let self := set_points init [(0, 0); (5, 0)]%Z in
   find_point_at_position self 4 0 = Some 0%nat /\
   (euclid 4 0 5 0 < euclid 4 0 0 0)%R) /\
  (let self := set_points init [(0, 0); (20, 0); (20, 3); (0, 3)]%Z in
   find_line_at_position self 10 3 = Ok (Some 0%nat) /\
   point_to_line_distance 10 3 0 0 20 0 = Ok 3%float /\
   point_to_line_distance 10 3 20 3 0 3 = Ok 0%float /\
   PrimFloat.ltb 0 3 = true) /\
  (let self := set_points init [(0, 0); (12, 5)]%Z in
   find_line_at_position self 13 0 = Ok None /\
   point_to_line_distance 13 0 0 0 12 5 = Ok 0x1.4000000000001p+2%float /\
   PrimFloat.leb 0x1.4000000000001p+2 5 = false).
Proof.
  split; [|split; [|split]].
  - intros self x y. split; [|split; [|split]].
    + intros i. apply find_point_at_position_Some.
    + apply find_point_at_position_None.
    + intros i. apply find_line_at_position_Some.
    + apply find_line_at_position_None.
  - cbv zeta. split; [reflexivity|].
    rewrite <- (distance_val 4 0 5 0), <- (distance_val 4 0 0 0).
    apply root_val_lt; [discriminate | reflexivity].
  - cbv zeta. repeat split.
  - cbv zeta. repeat split.
Qed.

(* ------------------------------------------------------------------ *)
(** * The list operations *)

Section ListOps.
Context {A : Type}.
Implicit Types (l : list A) (v : A) (i j : nat).

Lemma list_insert_length l i v :
  List.length (list_insert l i v) = S (List.length l).
Proof.
  unfold list_insert. rewrite length_app. cbn [List.length].
  rewrite Nat.add_succ_r, <- length_app, firstn_skipn. reflexivity.
Qed.

Lemma list_insert_at : forall i l v,
  (i <= List.length l)%nat -> nth_error (list_insert l i v) i = Some v.
Proof.
  unfold list_insert. induction i as [| i IH]; intros l v Hi.
  - reflexivity.
  - destruct l as [| a l]; cbn in Hi; [lia|]. cbn. apply IH. lia.
Qed.

Lemma list_insert_before : forall i l v j,
  (j < i)%nat -> (i <= List.length l)%nat ->
  nth_error (list_insert l i v) j = nth_error l j.
Proof.
  unfold list_insert. induction i as [| i IH]; intros l v j Hj Hi.
  - lia.
  - destruct l as [| a l]; cbn in Hi; [lia|].
    destruct j as [| j]; cbn; [reflexivity|]. apply IH; lia.
Qed.

Lemma list_insert_after : forall i l v j,
  (i <= j)%nat -> nth_error (list_insert l i v) (S j) = nth_error l j.
Proof.
  unfold list_insert. induction i as [| i IH]; intros l v j Hj.
  - reflexivity.
  - destruct l as [| a l].
    + cbn. destruct j; reflexivity.
    + destruct j as [| j]; [lia|]. cbn. apply IH. lia.
Qed.

Lemma list_setitem_Ok l i v :
  (i < List.length l)%nat ->
  exists l', list_setitem l i v = Ok l' /\
             List.length l' = List.length l /\
             nth_error l' i = Some v /\
             forall j, j <> i -> nth_error l' j = nth_error l j.
Proof.
  intros Hi. unfold list_setitem.
  apply Nat.ltb_lt in Hi as Hb. rewrite Hb. eexists. split; [reflexivity|].
  clear Hb. revert l Hi. induction i as [| i IH]; intros l Hi.
  - destruct l as [| a l]; cbn in Hi; [lia|]. cbn. repeat split.
    intros [| j] Hj; [congruence | reflexivity].
  - destruct l as [| a l]; cbn in Hi; [lia|].
    destruct (IH l ltac:(lia)) as (Hlen & Hat & Hother).
    cbn. split; [f_equal; exact Hlen|]. split; [exact Hat|].
    intros [| j] Hj; [reflexivity|]. cbn. apply Hother. congruence.
Qed.

Lemma list_setitem_Raise l i v :
  (List.length l <= i)%nat -> list_setitem l i v = Raise IndexError.
Proof.
  intros Hi. unfold list_setitem. apply Nat.ltb_ge in Hi. rewrite Hi. reflexivity.
Qed.

Lemma list_pop_Ok l i :
  (i < List.length l)%nat ->
  exists v l', list_pop l i = Ok (v, l') /\
               nth_error l i = Some v /\
               S (List.length l') = List.length l /\
               (forall j, (j < i)%nat -> nth_error l' j = nth_error l j) /\
               (forall j, (i <= j)%nat -> nth_error l' j = nth_error l (S j)).
Proof.
  intros Hi. unfold list_pop.
  destruct (nth_error l i) as [v |] eqn:E.
  2:{ apply nth_error_None in E. lia. }
  exists v. eexists. split; [reflexivity|]. split; [reflexivity|].
  clear v E. revert l Hi. induction i as [| i IH]; intros l Hi.
  - destruct l as [| a l]; cbn in Hi; [lia|]. cbn. repeat split.
    intros j Hj. lia.
  - destruct l as [| a l]; cbn in Hi; [lia|].
    destruct (IH l ltac:(lia)) as (Hlen & Hlt & Hge).
    cbn. split; [f_equal; exact Hlen|]. split.
    + intros [| j] Hj; [reflexivity|]. cbn. apply Hlt. lia.
    + intros [| j] Hj; [lia|]. cbn. apply Hge. lia.
Qed.

End ListOps.

(* ------------------------------------------------------------------ *)
(** * Pointer down: [on_canvas_click] *)

Lemma on_canvas_click_drag (self : PointTraceEditor) (x y : Z) (i : nat) :
  find_point_at_position self x y = Some i ->
  exists self',
    on_canvas_click self x y = Ok self' /\
    points self' = points self /\
    dragging self' = true /\ drag_point_index self' = Some i /\
    mouse_x self' = mouse_x self /\ mouse_y self' = mouse_y self.
Proof.
  intros H. unfold on_canvas_click. rewrite H.
  eexists. split; [reflexivity|]. repeat split.
Qed.

Lemma on_canvas_click_insert (self : PointTraceEditor) (x y : Z) (k : nat) :
  find_point_at_position self x y = None ->
  find_line_at_position self x y = Ok (Some k) ->
  exists self',
    on_canvas_click self x y = Ok self' /\
    points self' = list_insert (points self) (k + 1) (x, y) /\
    dragging self' = dragging self /\
    drag_point_index self' = drag_point_index self /\
    mouse_x self' = mouse_x self /\ mouse_y self' = mouse_y self.
Proof.
  intros Hp Hl. unfold on_canvas_click. rewrite Hp, Hl. cbn [bind].
  eexists. split; [reflexivity|]. repeat split.
Qed.

Lemma on_canvas_click_append (self : PointTraceEditor) (x y : Z) :
  find_point_at_position self x y = None ->
  find_line_at_position self x y = Ok None ->
  exists self',
    on_canvas_click self x y = Ok self' /\
    points self' = (points self ++ [(x, y)])%list /\
    dragging self' = dragging self /\
    drag_point_index self' = drag_point_index self /\
    mouse_x self' = mouse_x self /\ mouse_y self' = mouse_y self.
Proof.
  intros Hp Hl. unfold on_canvas_click. rewrite Hp, Hl. cbn [bind].
  eexists. split; [reflexivity|]. repeat split.
Qed.

(** A click at (5, 1) on the trace [(0,0), (10,0)] is 5.1 px from the
    point (0,0): it starts a drag of point 0 and inserts nothing. *)
Lemma click_5_1_starts_drag :
  points two_points_10 = [(0, 0); (10, 0)]%Z /\
  exists self',
    on_canvas_click two_points_10 5 1 = Ok self' /\
    dragging self' = true /\ drag_point_index self' = Some 0%nat /\
    points self' = [(0, 0); (10, 0)]%Z /\
    points self' <> [(0, 0); (5, 1); (10, 0)]%Z.
Proof.
  split; [reflexivity|]. eexists. split; [reflexivity|].
  repeat split. discriminate.
Qed.

(** C1 (amended): [on_canvas_click] never raises and classifies in a
    fixed order.  If some point lies within 8 px of the click it starts a
    drag of the lowest such point and leaves the trace alone; otherwise, if
    some segment lies within 5 px, it inserts the clicked coordinates at
    index [k + 1] for the lowest such segment [k], the points up to [k]
    staying and the later ones moving up by one; otherwise it appends
    them.  The segment test is the one the code runs, on the double that
    [point_to_line_distance] returns.  On the trace [(0,0), (20,0)] a click
    at (10,1) yields [(0,0), (10,1), (20,0)]; on [(0,0), (10,0)] a click at
    (5,1) is within 8 px of point 0 and starts a drag of it; on
    [(0,0), (10,24)] a click at (10,11), 5 px from the segment, is
    appended, the distance returned being 5.000000000000001. *)
Theorem on_canvas_click_priority :
  (forall (self : PointTraceEditor) (x y : Z),
      exists self',
        on_canvas_click self x y = Ok self' /\
        ((exists i, point_hit_at (points self) x y i) ->
         exists i,
           first_at (point_hit_at (points self) x y) i /\
           dragging self' = true /\ drag_point_index self' = Some i /\
           points self' = points self) /\
        ((forall i, ~ point_hit_at (points self) x y i) ->
         (exists k, line_hit_at (points self) x y k) ->
         exists k,
           first_at (line_hit_at (points self) x y) k /\
           points self' = list_insert (points self) (k + 1) (x, y) /\
           nth_error (points self') (k + 1) = Some (x, y) /\
           (forall j, (j <= k)%nat ->
                      nth_error (points self') j = nth_error (points self) j) /\
           (forall j, (k < j)%nat ->
                      nth_error (points self') (S j) = nth_error (points self) j) /\
           dragging self' = dragging self /\
           drag_point_index self' = drag_point_index self) /\
        ((forall i, ~ point_hit_at (points self) x y i) ->
         (forall k, ~ line_hit_at (points self) x y k) ->
         points self' = (points self ++ [(x, y)])%list /\
         dragging self' = dragging self /\
         drag_point_index self' = drag_point_index self)) /\
  (points two_points_20 = [(0, 0); (20, 0)]%Z /\
   exists self',
     on_canvas_click two_points_20 10 1 = Ok self' /\
     points self' = [(0, 0); (10, 1); (20, 0)]%Z) /\
  (points two_points_10 = [(0, 0); (10, 0)]%Z /\
   within_click_radius 5 1 (0, 0)%Z /\
   exists self',
     on_canvas_click two_points_10 5 1 = Ok self' /\
     dragging self' = true /\ drag_point_index self' = Some 0%nat /\
     points self' = [(0, 0); (10, 0)]%Z) /\
  (points two_points_10_24 = [(0, 0); (10, 24)]%Z /\
   point_to_line_distance 10 11 0 0 10 24 = Ok 0x1.4000000000001p+2%float /\
   PrimFloat.leb 0x1.4000000000001p+2 5 = false /\
   exists self',
     on_canvas_click two_points_10_24 10 11 = Ok self' /\
     points self' = [(0, 0); (10, 24); (10, 11)]%Z).
Proof.
  split; [|split; [|split]].
  - intros self x y.
    destruct (find_point_at_position self x y) as [i |] eqn:Hp.
    + destruct (on_canvas_click_drag self x y i Hp)
        as (self' & Hrun & Hpts & Hd & Hi & _).
      exists self'. split; [exact Hrun|].
      apply find_point_at_position_Some in Hp as Hfirst.
      split; [|split].
      * intros _. exists i. repeat split; try assumption; apply Hfirst.
      * intros Hno. exfalso. apply (Hno i), Hfirst.
      * intros Hno. exfalso. apply (Hno i), Hfirst.
    + pose proof (proj1 (find_point_at_position_None self x y) Hp) as Hno.
      destruct (find_line_at_position_total self x y) as [[k |] Hl].
      * destruct (on_canvas_click_insert self x y k Hp Hl)
          as (self' & Hrun & Hpts & Hd & Hi & _).
        exists self'. split; [exact Hrun|].
        apply find_line_at_position_Some in Hl as Hfirst.
        split; [|split].
        -- intros [i Hi']. exfalso. apply (Hno i), Hi'.
        -- intros _ _. exists k. split; [exact Hfirst|]. split; [exact Hpts|].
           assert (Hk : (k + 1 <= List.length (points self))%nat).
           { destruct Hfirst as [(a & b & _ & Hb & _) _].
             assert (S k < List.length (points self))%nat
               by (apply nth_error_Some; congruence).
             lia. }
           rewrite Hpts. split; [apply list_insert_at; exact Hk|].
           split; [intros j Hj; apply list_insert_before; [lia | exact Hk]|].
           split; [intros j Hj; apply list_insert_after; lia|].
           split; assumption.
        -- intros _ Hnol. exfalso. apply (Hnol k), Hfirst.
      * destruct (on_canvas_click_append self x y Hp Hl)
          as (self' & Hrun & Hpts & Hd & Hi & _).
        exists self'. split; [exact Hrun|].
        pose proof (proj1 (find_line_at_position_None self x y) Hl) as Hnol.
        split; [|split].
        -- intros [i Hi']. exfalso. apply (Hno i), Hi'.
        -- intros _ [k Hk]. exfalso. apply (Hnol k), Hk.
        -- intros _ _. repeat split; assumption.
  - split; [reflexivity|]. eexists. split; reflexivity.
  - split; [reflexivity|]. split.
    + apply click_test_spec. reflexivity.
    + eexists. split; [reflexivity|]. repeat split.
  - split; [reflexivity|]. split; [reflexivity|]. split; [reflexivity|].
    eexists. split; reflexivity.
Qed.

(* ------------------------------------------------------------------ *)
(** * The drag state *)

(** Which events write the two drag fields, and what they write. *)
Lemma step_drag_fields (e : event) (self : PointTraceEditor) :
  (dragging (step e self) = dragging self /\
   drag_point_index (step e self) = drag_point_index self) \/
  (exists x y i,
      e = Button1 x y /\ find_point_at_position self x y = Some i /\
      dragging (step e self) = true /\
      drag_point_index (step e self) = Some i) \/
  (exists x y,
      e = ButtonRelease1 x y /\ dragging self = true /\
      dragging (step e self) = false /\
      drag_point_index (step e self) = None).
Proof.
  destruct e as [x y | x y | x y | x y | keysym | |].
  - unfold step, callback, on_canvas_click.
    destruct (find_point_at_position self x y) as [i |] eqn:Hp.
    + right. left. exists x, y, i. repeat split. exact Hp.
    + left. destruct (find_line_at_position_total self x y) as [[k |] Hl];
        rewrite Hl; split; reflexivity.
  - left. unfold step, callback, on_canvas_drag.
    destruct (dragging self) eqn:Hd; [|split; congruence].
    destruct (drag_point_index self) as [i |] eqn:Hi; [|split; congruence].
    unfold list_setitem. destruct (i <? List.length (points self))%nat;
      cbn; split; congruence.
  - unfold step, callback, on_canvas_release.
    destruct (dragging self) eqn:Hd; [|left; split; congruence].
    destruct (drag_point_index self) as [i |] eqn:Hi;
      [|left; cbn; split; congruence].
    unfold list_setitem. destruct (i <? List.length (points self))%nat; cbn.
    + right. right. exists x, y. repeat split.
    + left. split; congruence.
  - left. split; reflexivity.
  - left. unfold step, callback, on_key_press, delete_point_at_mouse.
    destruct (String.eqb (lower keysym) "d"); [|split; reflexivity].
    destruct (find_point_at_position self (mouse_x self) (mouse_y self)) as [i |];
      [|split; reflexivity].
    unfold list_pop. destruct (nth_error (points self) i) as [p |];
      cbn; split; reflexivity.
  - left. split; reflexivity.
  - left. unfold step, callback, copy_coordinates.
    destruct (points self); split; reflexivity.
Qed.

Lemma step_drag_consistent (e : event) (self : PointTraceEditor) :
  drag_consistent self -> drag_consistent (step e self).
Proof.
  unfold drag_consistent. intros H.
  destruct (step_drag_fields e self)
    as [[Hd Hi] | [(x & y & i & _ & _ & Hd & Hi) | (x & y & _ & _ & Hd & Hi)]];
    rewrite Hd, Hi.
  - exact H.
  - split; [discriminate | reflexivity].
  - split; [discriminate | congruence].
Qed.

Lemma reachable_drag_consistent (self : PointTraceEditor) :
  reachable self -> drag_consistent self.
Proof.
  induction 1 as [| e self _ IH].
  - split; [discriminate | intros H; exfalso; apply H; reflexivity].
  - apply step_drag_consistent. exact IH.
Qed.

Lemma reachable_mainloop (es : list event) :
  forall self, reachable self -> reachable (mainloop es self).
Proof.
  unfold mainloop. induction es as [| e es IH]; intros self H; cbn [fold_left].
  - exact H.
  - apply IH. apply reachable_step. exact H.
Qed.


Lemma held_point_reachable : reachable held_point.
Proof. apply reachable_mainloop, reachable_init. Qed.


Lemma step_length_ge (e : event) (self : PointTraceEditor) :
  deletes_or_clears e = false ->
  (List.length (points self) <= List.length (points (step e self)))%nat.
Proof.
  intros He. destruct e as [x y | x y | x y | x y | keysym | |];
    cbn [deletes_or_clears] in He; try discriminate.
  - unfold step, callback, on_canvas_click.
    destruct (find_point_at_position self x y) as [i |]; [cbn; lia|].
    destruct (find_line_at_position_total self x y) as [[k |] Hl];
      rewrite Hl; cbn.
    + rewrite list_insert_length. lia.
    + rewrite length_app. lia.
  - unfold step, callback, on_canvas_drag.
    destruct (dragging self); [|lia].
    destruct (drag_point_index self) as [i |]; [|lia].
    destruct (Nat.lt_ge_cases i (List.length (points self))) as [Hi | Hi].
    + destruct (list_setitem_Ok (points self) i (x, y) Hi) as (l' & Hl' & Hlen & _).
      rewrite Hl'. cbn. lia.
    + rewrite (list_setitem_Raise _ _ _ Hi). cbn. lia.
  - unfold step, callback, on_canvas_release.
    destruct (dragging self); [|lia].
    destruct (drag_point_index self) as [i |]; cbn; [|lia].
    destruct (Nat.lt_ge_cases i (List.length (points self))) as [Hi | Hi].
    + destruct (list_setitem_Ok (points self) i (x, y) Hi) as (l' & Hl' & Hlen & _).
      rewrite Hl'. cbn. lia.
    + rewrite (list_setitem_Raise _ _ _ Hi). cbn. lia.
  - cbn. lia.
  - unfold step, callback, on_key_press. rewrite He. lia.
  - unfold step, callback, copy_coordinates.
    destruct (points self) eqn:E; cbn; rewrite ?E; cbn; lia.
Qed.

Lemma step_keeps_index_valid (e : event) (self : PointTraceEditor) :
  deletes_or_clears e = false ->
  drag_index_valid self -> drag_index_valid (step e self).
Proof.
  unfold drag_index_valid. intros He Hv j Hj.
  pose proof (step_length_ge e self He) as Hlen.
  destruct (step_drag_fields e self)
    as [[_ Hi] | [(x & y & i & _ & Hp & _ & Hi) | (x & y & _ & _ & _ & Hi)]];
    rewrite Hi in Hj.
  - apply Hv in Hj. lia.
  - injection Hj as <-. apply find_point_at_position_bound in Hp. lia.
  - discriminate.
Qed.

(* ------------------------------------------------------------------ *)
(** * A drag: press, moves, release *)

Lemma on_canvas_drag_moves (self : PointTraceEditor) (x y : Z) (i : nat) :
  dragging self = true -> drag_point_index self = Some i ->
  (i < List.length (points self))%nat ->
  exists self',
    on_canvas_drag self x y = Ok self' /\
    dragging self' = true /\ drag_point_index self' = Some i /\
    List.length (points self') = List.length (points self) /\
    nth_error (points self') i = Some (x, y) /\
    forall j, j <> i -> nth_error (points self') j = nth_error (points self) j.
Proof.
  intros Hd Hi Hlt. unfold on_canvas_drag. rewrite Hd, Hi.
  destruct (list_setitem_Ok (points self) i (x, y) Hlt)
    as (pts & Hset & Hlen & Hat & Hother).
  rewrite Hset. cbn [bind]. eexists. split; [reflexivity|].
  cbn. repeat split; assumption.
Qed.

Lemma on_canvas_drag_idle (self : PointTraceEditor) (x y : Z) :
  dragging self = false -> on_canvas_drag self x y = Ok self.
Proof. intros Hd. unfold on_canvas_drag. rewrite Hd. reflexivity. Qed.

Lemma on_canvas_release_drops (self : PointTraceEditor) (x y : Z) (i : nat) :
  dragging self = true -> drag_point_index self = Some i ->
  (i < List.length (points self))%nat ->
  exists self',
    on_canvas_release self x y = Ok self' /\
    dragging self' = false /\ drag_point_index self' = None /\
    List.length (points self') = List.length (points self) /\
    nth_error (points self') i = Some (x, y) /\
    forall j, j <> i -> nth_error (points self') j = nth_error (points self) j.
Proof.
  intros Hd Hi Hlt. unfold on_canvas_release. rewrite Hd, Hi.
  destruct (list_setitem_Ok (points self) i (x, y) Hlt)
    as (pts & Hset & Hlen & Hat & Hother).
  rewrite Hset. cbn [bind]. eexists. split; [reflexivity|].
  cbn. repeat split; assumption.
Qed.

Lemma on_canvas_release_idle (self : PointTraceEditor) (x y : Z) :
  dragging self = false -> on_canvas_release self x y = Ok self.
Proof. intros Hd. unfold on_canvas_release. rewrite Hd. reflexivity. Qed.

Lemma run_moves_then_release (moves : list (Z * Z)) (rx ry : Z) (i : nat) :
  forall self,
    dragging self = true -> drag_point_index self = Some i ->
    (i < List.length (points self))%nat ->
    exists self',
      run (moves_then_release moves rx ry) self = Ok self' /\
      dragging self' = false /\ drag_point_index self' = None /\
      List.length (points self') = List.length (points self) /\
      nth_error (points self') i = Some (rx, ry) /\
      forall j, j <> i -> nth_error (points self') j = nth_error (points self) j.
Proof.
  unfold moves_then_release.
  induction moves as [| [mx my] moves IH]; intros self Hd Hi Hlt; cbn [map app run].
  - destruct (on_canvas_release_drops self rx ry i Hd Hi Hlt)
      as (self' & Hrun & H).
    exists self'. cbn [callback]. rewrite Hrun. split; [reflexivity | exact H].
  - destruct (on_canvas_drag_moves self mx my i Hd Hi Hlt)
      as (s1 & Hrun & Hd1 & Hi1 & Hlen1 & _ & Hother1).
    cbn [callback fst snd]. rewrite Hrun. cbn [bind].
    destruct (IH s1 Hd1 Hi1 ltac:(lia))
      as (self' & Hrun' & Hd' & Hi' & Hlen' & Hat' & Hother').
    exists self'. split; [exact Hrun'|]. repeat split; try assumption.
    + congruence.
    + intros j Hj. rewrite Hother' by exact Hj. apply Hother1. exact Hj.
Qed.

(** C7: a press on an existing point [i], any number of moves and the
    release run without an exception and leave a trace of the same length
    in which every point but [i] is as before, point [i] is at the release
    position, and the drag state is cleared; [on_canvas_drag] while not
    dragging returns the state as it is. *)
Theorem drag_keeps_other_points
    (self : PointTraceEditor) (x y : Z) (i : nat)
    (moves : list (Z * Z)) (rx ry : Z) :
  find_point_at_position self x y = Some i ->
  (exists self',
      run (Button1 x y :: moves_then_release moves rx ry) self = Ok self' /\
      List.length (points self') = List.length (points self) /\
      (forall j, j <> i -> nth_error (points self') j = nth_error (points self) j) /\
      nth_error (points self') i = Some (rx, ry) /\
      dragging self' = false /\ drag_point_index self' = None) /\
  (forall (idle : PointTraceEditor) (mx my : Z),
      dragging idle = false -> on_canvas_drag idle mx my = Ok idle).
Proof.
  intros Hp. split; [|exact on_canvas_drag_idle].
  destruct (on_canvas_click_drag self x y i Hp)
    as (s1 & Hrun & Hpts & Hd & Hi & _).
  pose proof (find_point_at_position_bound self x y i Hp) as Hlt.
  rewrite <- Hpts in Hlt.
  destruct (run_moves_then_release moves rx ry i s1 Hd Hi Hlt)
    as (self' & Hrun' & Hd' & Hi' & Hlen' & Hat' & Hother').
  exists self'. cbn [run callback]. rewrite Hrun. cbn [bind].
  rewrite Hpts in Hlen', Hother'. repeat split; assumption.
Qed.

(** A drag of point 0 of the trace [(0,0), (10,0)]: pressed at (5,1),
    moved through (6,2) and (30,-4), released at (8,4). *)
Lemma drag_keeps_other_points_witness :
  find_point_at_position two_points_10 5 1 = Some 0%nat /\
  exists self',
    run (Button1 5 1 :: moves_then_release [(6, 2); (30, -4)]%Z 8 4)
      two_points_10 = Ok self' /\
    List.length (points self') = List.length (points two_points_10) /\
    (forall j, j <> 0%nat ->
               nth_error (points self') j = nth_error (points two_points_10) j) /\
    nth_error (points self') 0 = Some (8, 4)%Z /\
    dragging self' = false /\ drag_point_index self' = None.
Proof.
  split; [reflexivity|].
  exact (proj1 (drag_keeps_other_points two_points_10 5 1 0
                  [(6, 2); (30, -4)]%Z 8 4 eq_refl)).
Defined.

(* ------------------------------------------------------------------ *)
(** * Deleting and clearing *)

(** Pressing [d] while the pointer is held on the only point removes the
    point and leaves the drag state on index 0 of an empty trace. *)
Lemma delete_keeps_drag_state :
  dragging held_point = true /\ drag_point_index held_point = Some 0%nat /\
  find_point_at_position held_point (mouse_x held_point) (mouse_y held_point)
  = Some 0%nat /\
  exists self',
    delete_point_at_mouse held_point = Ok self' /\
    points self' = [] /\
    dragging self' = true /\ drag_point_index self' = Some 0%nat.
Proof.
  repeat split. eexists. split; [reflexivity|]. repeat split.
Qed.

(** C4 (amended): [delete_point_at_mouse] never raises and never writes
    the drag state.  If some point lies within 8 px of the mouse position,
    the lowest such point [i] is removed: the trace is one shorter, the
    points before [i] stay and the later ones move down by one.  If none
    does, the trace is unchanged and the status line reads "No point near
    mouse cursor to delete". *)
Theorem delete_point_at_mouse_effect (self : PointTraceEditor) :
  exists self',
    delete_point_at_mouse self = Ok self' /\
    dragging self' = dragging self /\
    drag_point_index self' = drag_point_index self /\
    ((exists i, point_hit_at (points self) (mouse_x self) (mouse_y self) i) ->
     exists i,
       first_at (point_hit_at (points self) (mouse_x self) (mouse_y self)) i /\
       S (List.length (points self')) = List.length (points self) /\
       (forall j, (j < i)%nat ->
                  nth_error (points self') j = nth_error (points self) j) /\
       (forall j, (i <= j)%nat ->
                  nth_error (points self') j = nth_error (points self) (S j))) /\
    ((forall i, ~ point_hit_at (points self) (mouse_x self) (mouse_y self) i) ->
     points self' = points self /\
     status_var self' = "No point near mouse cursor to delete").
Proof.
  unfold delete_point_at_mouse.
  destruct (find_point_at_position self (mouse_x self) (mouse_y self))
    as [i |] eqn:Hp.
  - pose proof (find_point_at_position_bound _ _ _ _ Hp) as Hlt.
    destruct (list_pop_Ok (points self) i Hlt)
      as (p & pts & Hpop & _ & Hlen & Hbefore & Hafter).
    rewrite Hpop. cbn [bind]. eexists. split; [reflexivity|].
    apply find_point_at_position_Some in Hp.
    cbn [dragging drag_point_index points status_var set_points set_status].
    split; [reflexivity|]. split; [reflexivity|]. split.
    + intros _. exists i. repeat split; try assumption; apply Hp.
    + intros Hno. exfalso. apply (Hno i), Hp.
  - eexists. split; [reflexivity|].
    pose proof (proj1 (find_point_at_position_None _ _ _) Hp) as Hno.
    cbn [dragging drag_point_index points status_var set_points set_status].
    split; [reflexivity|]. split; [reflexivity|]. split.
    + intros [i Hi]. exfalso. apply (Hno i), Hi.
    + intros _. split; reflexivity.
Qed.

(** The [d] key with the mouse on the only point of the trace. *)
Lemma delete_point_at_mouse_effect_witness :
  (exists i,
      point_hit_at (points held_point)
        (mouse_x held_point) (mouse_y held_point) i) /\
  exists self',
    delete_point_at_mouse held_point = Ok self' /\
    S (List.length (points self')) = List.length (points held_point).
Proof.
  assert (Hhit : exists i,
             point_hit_at (points held_point)
               (mouse_x held_point) (mouse_y held_point) i).
  { exists 0%nat, (50, 50)%Z. split; [reflexivity|].
    apply click_test_spec. reflexivity. }
  split; [exact Hhit|].
  destruct (delete_point_at_mouse_effect held_point)
    as (self' & Hrun & _ & _ & Hsome & _).
  exists self'. split; [exact Hrun|].
  destruct (Hsome Hhit) as (i & _ & Hlen & _). exact Hlen.
Defined.

(** "Clear All Points" while the pointer is held on a point empties the
    trace and leaves the drag state set. *)
Lemma clear_keeps_drag_state :
  dragging held_point = true /\ drag_point_index held_point = Some 0%nat /\
  exists self',
    clear_points held_point = Ok self' /\
    points self' = [] /\
    dragging self' = true /\ drag_point_index self' = Some 0%nat.
Proof.
  repeat split. eexists. split; [reflexivity|]. repeat split.
Qed.

(** C5 (amended): [clear_points] never raises, empties the trace and
    leaves the drag state as it was; a second call in a row returns the
    same state, with the trace empty again. *)
Theorem clear_points_effect (self : PointTraceEditor) :
  exists once twice,
    clear_points self = Ok once /\ clear_points once = Ok twice /\
    points once = [] /\ points twice = [] /\ twice = once /\
    dragging once = dragging self /\
    drag_point_index once = drag_point_index self.
Proof.
  eexists. eexists. split; [reflexivity|]. split; [reflexivity|].
  repeat split.
Qed.

Lemma reachable_idle_edits_reachable (self : PointTraceEditor) :
  reachable_idle_edits self -> reachable self.
Proof.
  induction 1 as [| e self _ IH _]; [apply reachable_init|].
  apply reachable_step. exact IH.
Qed.

Lemma reachable_idle_edits_mainloop (es : list event) :
  forallb (fun e => negb (deletes_or_clears e)) es = true ->
  forall self, reachable_idle_edits self -> reachable_idle_edits (mainloop es self).
Proof.
  unfold mainloop. induction es as [| e es IH]; cbn [forallb fold_left].
  - intros _ self H. exact H.
  - intros Hes self H. apply andb_true_iff in Hes as [He Hes].
    apply IH; [exact Hes|]. apply idle_edits_step; [exact H|].
    intros Hd. rewrite Hd in He. discriminate.
Qed.

Lemma step_shrinking_keeps_drag (e : event) (self : PointTraceEditor) :
  deletes_or_clears e = true ->
  dragging (step e self) = dragging self /\
  drag_point_index (step e self) = drag_point_index self.
Proof.
  intros He.
  destruct (step_drag_fields e self)
    as [H | [(x & y & i & -> & _) | (x & y & -> & _)]];
    [exact H | discriminate | discriminate].
Qed.

Lemma reachable_idle_edits_valid (self : PointTraceEditor) :
  reachable_idle_edits self -> drag_index_valid self.
Proof.
  induction 1 as [| e self Hr IH Hguard].
  - intros i Hi. discriminate.
  - destruct (deletes_or_clears e) eqn:He.
    + destruct (step_shrinking_keeps_drag e self He) as [_ Hi].
      pose proof (reachable_drag_consistent self
                    (reachable_idle_edits_reachable self Hr)) as Hc.
      intros i Hsome. rewrite Hi in Hsome. exfalso.
      assert (Hd : dragging self = true) by (apply Hc; congruence).
      rewrite (Hguard eq_refl) in Hd. discriminate.
    + apply step_keeps_index_valid; assumption.
Qed.

(** With the pointer held on the only point, the [d] key leaves a drag
    index that is no index of the trace. *)
Lemma delete_breaks_index_valid :
  reachable (step (Key "d") held_point) /\
  dragging (step (Key "d") held_point) = true /\
  drag_point_index (step (Key "d") held_point) = Some 0%nat /\
  points (step (Key "d") held_point) = [] /\
  ~ drag_index_valid (step (Key "d") held_point).
Proof.
  split; [apply reachable_step, held_point_reachable|].
  repeat split. intros H. specialize (H 0%nat eq_refl).
  change (0 < 0)%nat in H. lia.
Qed.

(** C6 (amended): in every state reached with the [d] key and "Clear All
    Points" used only while no drag is in progress, a stored drag index is
    an index of the trace.  Every other event (insert, append, drag start,
    drag move, release, mouse move, copy) keeps a valid index valid from
    any state; the [d] key and "Clear All Points" never write the drag
    state. *)
Theorem drag_index_valid_idle_edits (self : PointTraceEditor) :
  reachable_idle_edits self ->
  drag_index_valid self /\
  (forall e, deletes_or_clears e = false -> drag_index_valid (step e self)) /\
  (forall e, deletes_or_clears e = true ->
             dragging (step e self) = dragging self /\
             drag_point_index (step e self) = drag_point_index self).
Proof.
  intros H. pose proof (reachable_idle_edits_valid self H) as Hv.
  split; [exact Hv|]. split.
  - intros e He. apply step_keeps_index_valid; assumption.
  - intros e He. apply step_shrinking_keeps_drag. exact He.
Qed.

Lemma held_point_idle_edits : reachable_idle_edits held_point.
Proof.
  apply reachable_idle_edits_mainloop; [reflexivity | apply idle_edits_init].
Defined.

(** The drag index of the state with the pointer held on a point. *)
Lemma drag_index_valid_idle_edits_witness :
  reachable_idle_edits held_point /\ drag_index_valid held_point.
Proof.
  split.
  - exact held_point_idle_edits.
  - exact (proj1 (drag_index_valid_idle_edits held_point held_point_idle_edits)).
Defined.

(* ------------------------------------------------------------------ *)
(** * Copying the coordinates *)

Lemma int_of_str_str (z : Z) : int_of_str (str z) = Some z.
Proof.
  unfold int_of_str, str. rewrite NilZero.isi.
  - cbn [option_map]. f_equal. apply DecimalZ.of_to.
  - destruct z as [| p | p]; cbn; try discriminate.
    intros [= H]. exact (DecimalPos.Unsigned.to_uint_nonnil p H).
  - destruct z as [| p | p]; cbn; try discriminate.
    intros [= H]. exact (DecimalPos.Unsigned.to_uint_nonnil p H).
Qed.

Lemma join_format_points (pts : list point) :
  join ", " (map format_point pts) = export_format pts.
Proof.
  induction pts as [| [x y] rest IH]; [reflexivity|].
  destruct rest as [| q rest]; [reflexivity|].
  change (format_point (x, y) ++ ", " ++ join ", " (map format_point (q :: rest))
          = format_point (x, y) ++ ", " ++ export_format (q :: rest)).
  rewrite IH. reflexivity.
Qed.

(** On the empty trace nothing reaches the clipboard: the callback shows
    a warning and returns. *)
Lemma copy_empty_shows_warning :
  points init = [] /\
  snd (copy_coordinates init)
  = showwarning "No Points" "No points to copy. Place some points first." /\
  snd (copy_coordinates init) <> pyperclip_copy "".
Proof. repeat split. discriminate. Qed.

(** C8 (amended): on a trace that is not empty [copy_coordinates] copies
    exactly the text "(x1, y1), (x2, y2), ...": each pair in parentheses,
    pairs separated by comma-space, in trace order, every coordinate in a
    rendering that reads back as the coordinate; the trace [(1,2), (3,4)]
    gives "(1, 2), (3, 4)".  On the empty trace it copies nothing and
    shows the warning "No Points", leaving the state as it is. *)
Theorem copy_coordinates_text :
  (forall (self : PointTraceEditor) (p : point) (rest : list point),
      points self = p :: rest ->
      snd (copy_coordinates self) = pyperclip_copy (export_format (points self)) /\
      points (fst (copy_coordinates self)) = points self) /\
  (forall z : Z, int_of_str (str z) = Some z) /\
  snd (copy_coordinates (set_points init [(1, 2); (3, 4)]%Z))
  = pyperclip_copy "(1, 2), (3, 4)" /\
  (forall self : PointTraceEditor,
      points self = [] ->
      copy_coordinates self
      = (self,
         showwarning "No Points" "No points to copy. Place some points first.")).
Proof.
  split; [|split; [|split]].
  - intros self p rest Hpts. unfold copy_coordinates. rewrite Hpts.
    cbn [fst snd]. rewrite join_format_points. split; [reflexivity | exact Hpts].
  - exact int_of_str_str.
  - reflexivity.
  - intros self Hpts. unfold copy_coordinates. rewrite Hpts. reflexivity.
Qed.

(* ------------------------------------------------------------------ *)
(** * The keyboard *)

Lemma lower_ascii_d (c : ascii) :
  lower_ascii c = "d"%char <-> c = "d"%char \/ c = "D"%char.
Proof.
  destruct c as [[] [] [] [] [] [] [] []]; cbv; split;
    (intros H; first [discriminate H | left; reflexivity | right; reflexivity
                     | destruct H as [H | H]; first [discriminate H | reflexivity]]).
Qed.

Lemma lower_empty (s : string) : lower s = "" -> s = "".
Proof. destruct s; [reflexivity | discriminate]. Qed.

Lemma lower_d (s : string) : lower s = "d" <-> s = "d" \/ s = "D".
Proof.
  destruct s as [| c rest]; cbn [lower].
  - split; [discriminate | intros [H | H]; discriminate H].
  - split.
    + intros [= Hc Hrest]. apply lower_empty in Hrest. subst rest.
      apply lower_ascii_d in Hc. destruct Hc as [-> | ->]; [left | right]; reflexivity.
    + intros [[= -> ->] | [= -> ->]]; reflexivity.
Qed.

(** X3: the key binding deletes on the keysyms [d] and [D] and on no
    other: every other key returns the state as it is. *)
Theorem on_key_press_d_only (self : PointTraceEditor) (keysym : string) :
  (keysym = "d" \/ keysym = "D" ->
   on_key_press self keysym = delete_point_at_mouse self) /\
  (~ (keysym = "d" \/ keysym = "D") -> on_key_press self keysym = Ok self).
Proof.
  unfold on_key_press. destruct (String.eqb (lower keysym) "d") eqn:E.
  - apply String.eqb_eq, lower_d in E. split; [reflexivity | contradiction].
  - apply String.eqb_neq in E. split; [|reflexivity].
    intros H. apply lower_d in H. contradiction.
Qed.

(* ------------------------------------------------------------------ *)
(** * A drag index left behind *)

(** X4: with a drag in progress whose index is past the end of the trace,
    [on_canvas_drag] and [on_canvas_release] raise [IndexError] before
    writing anything: the editor stays as it is, the drag still set. *)
Theorem stale_drag_index_raises
    (self : PointTraceEditor) (x y : Z) (i : nat) :
  dragging self = true -> drag_point_index self = Some i ->
  (List.length (points self) <= i)%nat ->
  on_canvas_drag self x y = Raise IndexError /\
  on_canvas_release self x y = Raise IndexError /\
  step (B1Motion x y) self = self /\
  step (ButtonRelease1 x y) self = self.
Proof.
  intros Hd Hi Hlen.
  assert (Hdrag : on_canvas_drag self x y = Raise IndexError).
  { unfold on_canvas_drag. rewrite Hd, Hi, (list_setitem_Raise _ _ _ Hlen).
    reflexivity. }
  assert (Hrel : on_canvas_release self x y = Raise IndexError).
  { unfold on_canvas_release. rewrite Hd, Hi, (list_setitem_Raise _ _ _ Hlen).
    reflexivity. }
  unfold step, callback. rewrite Hdrag, Hrel. repeat split.
Qed.

(** The state after [d] with the pointer held on the only point: the
    release that follows raises and leaves the drag set. *)
Lemma stale_drag_index_raises_witness :
  let self := step (Key "d") held_point in
  dragging self = true /\ drag_point_index self = Some 0%nat /\
  (List.length (points self) <= 0)%nat /\
  on_canvas_drag self 60 60 = Raise IndexError /\
  on_canvas_release self 60 60 = Raise IndexError /\
  step (B1Motion 60 60) self = self /\
  step (ButtonRelease1 60 60) self = self.
Proof.
  cbv zeta. split; [reflexivity|]. split; [reflexivity|].
  split; [apply Nat.le_refl|].
  exact (stale_drag_index_raises (step (Key "d") held_point) 60 60 0
           eq_refl eq_refl (Nat.le_refl 0)).
Defined.

(** X5: [d] on the dragged point while other points follow it, then the
    release: the dragged point is removed and the release writes its
    position over the point that followed, so two points of the trace are
    lost for one new one. *)
Theorem delete_during_drag_overwrites_next
    (self : PointTraceEditor) (i : nat) (rx ry : Z) :
  dragging self = true -> drag_point_index self = Some i ->
  find_point_at_position self (mouse_x self) (mouse_y self) = Some i ->
  (S i < List.length (points self))%nat ->
  exists self',
    run [Key "d"; ButtonRelease1 rx ry] self = Ok self' /\
    S (List.length (points self')) = List.length (points self) /\
    nth_error (points self') i = Some (rx, ry) /\
    (forall j, (j < i)%nat ->
               nth_error (points self') j = nth_error (points self) j) /\
    (forall j, (i < j)%nat ->
               nth_error (points self') j = nth_error (points self) (S j)) /\
    dragging self' = false /\ drag_point_index self' = None.
Proof.
  intros Hd Hi Hp Hlen.
  assert (Hlt : (i < List.length (points self))%nat) by lia.
  destruct (list_pop_Ok (points self) i Hlt)
    as (p & pts & Hpop & _ & Hlen1 & Hbefore & Hafter).
  cbn [run callback]. unfold on_key_press.
  change (lower "d") with "d". cbn [String.eqb Ascii.eqb Bool.eqb].
  unfold delete_point_at_mouse. rewrite Hp, Hpop. cbn [bind].
  set (s1 := set_status (set_points self pts) _).
  assert (Hd1 : dragging s1 = true) by exact Hd.
  assert (Hi1 : drag_point_index s1 = Some i) by exact Hi.
  assert (Hlt1 : (i < List.length (points s1))%nat) by (cbn; lia).
  destruct (on_canvas_release_drops s1 rx ry i Hd1 Hi1 Hlt1)
    as (self' & Hrun & Hd' & Hi' & Hlen' & Hat & Hother).
  rewrite Hrun. cbn [bind]. exists self'. split; [reflexivity|].
  cbn [points s1 set_points set_status] in Hlen', Hother.
  split; [lia|]. split; [exact Hat|]. split; [|split].
  - intros j Hj. rewrite Hother by lia. apply Hbefore. exact Hj.
  - intros j Hj. rewrite Hother by lia. apply Hafter. lia.
  - split; assumption.
Qed.

(** The first of the points (0,0) and (100,0) is held, [d] is pressed and
    the pointer released at (3,4): the trace is left as [(3,4)]. *)
Lemma delete_during_drag_overwrites_next_witness :
  dragging held_first_of_two = true /\
  drag_point_index held_first_of_two = Some 0%nat /\
  find_point_at_position held_first_of_two
    (mouse_x held_first_of_two) (mouse_y held_first_of_two) = Some 0%nat /\
  (1 < List.length (points held_first_of_two))%nat /\
  exists self',
    run [Key "d"; ButtonRelease1 3 4] held_first_of_two = Ok self' /\
    S (List.length (points self')) = List.length (points held_first_of_two) /\
    nth_error (points self') 0 = Some (3, 4)%Z.
Proof.
  split; [reflexivity|]. split; [reflexivity|]. split; [reflexivity|].
  split; [apply Nat.le_refl|].
  destruct (delete_during_drag_overwrites_next held_first_of_two 0 3 4
              eq_refl eq_refl eq_refl (Nat.le_refl 2))
    as (self' & Hrun & Hlen & Hat & _).
  exists self'. split; [exact Hrun|]. split; [exact Hlen | exact Hat].
Defined.

(* ------------------------------------------------------------------ *)
(** * What one event does to the trace and to the mouse position *)

(** X6: a pointer-down leaves the trace or makes it one longer; moves,
    releases, mouse moves and the copy button keep its length; a key
    leaves it or makes it one shorter; the clear button empties it. *)
Theorem step_length (e : event) (self : PointTraceEditor) :
  let n := List.length (points self) in
  let n' := List.length (points (step e self)) in
  match e with
  | Button1 _ _ => n' = n \/ n' = S n
  | Key _ => n' = n \/ S n' = n
  | ClearAllPoints => n' = 0%nat
  | B1Motion _ _ | ButtonRelease1 _ _ | Motion _ _ | CopyCoordinates => n' = n
  end.
Proof.
  cbv zeta. destruct e as [x y | x y | x y | x y | keysym | |].
  - unfold step, callback, on_canvas_click.
    destruct (find_point_at_position self x y) as [i |]; [left; reflexivity|].
    destruct (find_line_at_position_total self x y) as [[k |] Hl];
      rewrite Hl; right; cbn.
    + apply list_insert_length.
    + rewrite length_app. cbn. lia.
  - unfold step, callback, on_canvas_drag.
    destruct (dragging self); [|reflexivity].
    destruct (drag_point_index self) as [i |]; [|reflexivity].
    destruct (Nat.lt_ge_cases i (List.length (points self))) as [Hi | Hi].
    + destruct (list_setitem_Ok (points self) i (x, y) Hi) as (l' & Hl' & Hlen & _).
      rewrite Hl'. exact Hlen.
    + rewrite (list_setitem_Raise _ _ _ Hi). reflexivity.
  - unfold step, callback, on_canvas_release.
    destruct (dragging self); [|reflexivity].
    destruct (drag_point_index self) as [i |]; [|reflexivity].
    destruct (Nat.lt_ge_cases i (List.length (points self))) as [Hi | Hi].
    + destruct (list_setitem_Ok (points self) i (x, y) Hi) as (l' & Hl' & Hlen & _).
      rewrite Hl'. exact Hlen.
    + rewrite (list_setitem_Raise _ _ _ Hi). reflexivity.
  - reflexivity.
  - unfold step, callback, on_key_press.
    destruct (String.eqb (lower keysym) "d"); [|left; reflexivity].
    unfold delete_point_at_mouse.
    destruct (find_point_at_position self (mouse_x self) (mouse_y self))
      as [i |] eqn:Hp; [|left; reflexivity].
    apply find_point_at_position_bound in Hp.
    destruct (list_pop_Ok (points self) i Hp) as (p & pts & Hpop & _ & Hlen & _).
    rewrite Hpop. right. exact Hlen.
  - reflexivity.
  - unfold step, callback, copy_coordinates.
    destruct (points self) eqn:E; cbn; rewrite ?E; reflexivity.
Qed.

(** X7: on a trace of fewer than two points a pointer-down never inserts:
    it starts a drag of the point it hits, or else appends the clicked
    position; on the empty trace it always places the first point. *)
Theorem click_on_short_trace (self : PointTraceEditor) (x y : Z) :
  (List.length (points self) < 2)%nat ->
  exists self',
    on_canvas_click self x y = Ok self' /\
    ((find_point_at_position self x y = Some 0%nat /\
      points self' = points self /\
      dragging self' = true /\ drag_point_index self' = Some 0%nat) \/
     (find_point_at_position self x y = None /\
      points self' = (points self ++ [(x, y)])%list)) /\
    (points self = [] -> points self' = [(x, y)]).
Proof.
  intros Hlen.
  assert (Hline : find_line_at_position self x y = Ok None).
  { unfold find_line_at_position. apply Nat.ltb_lt in Hlen. rewrite Hlen.
    reflexivity. }
  destruct (find_point_at_position self x y) as [i |] eqn:Hp.
  - pose proof (find_point_at_position_bound self x y i Hp) as Hi.
    destruct (on_canvas_click_drag self x y i Hp)
      as (self' & Hrun & Hpts & Hd & Hidx & _).
    exists self'. split; [exact Hrun|].
    assert (i = 0)%nat by lia. subst i. split.
    + left. repeat split; assumption.
    + intros Hnil. rewrite Hnil in Hi. cbn in Hi. lia.
  - destruct (on_canvas_click_append self x y Hp Hline)
      as (self' & Hrun & Hpts & _).
    exists self'. split; [exact Hrun|]. split.
    + right. split; [reflexivity | exact Hpts].
    + intros Hnil. rewrite Hpts, Hnil. reflexivity.
Qed.

(** The first click of a session, at (50,50). *)
Lemma click_on_short_trace_witness :
  (List.length (points init) < 2)%nat /\
  exists self',
    on_canvas_click init 50 50 = Ok self' /\ points self' = [(50, 50)%Z].
Proof.
  assert (Hlen : (List.length (points init) < 2)%nat)
    by (apply Nat.lt_0_succ).
  split; [exact Hlen|].
  destruct (click_on_short_trace init 50 50 Hlen) as (self' & Hrun & _ & Hnil).
  exists self'. split; [exact Hrun | exact (Hnil eq_refl)].
Defined.

(** X8: the mouse position the [d] key works with is written by the
    plain mouse move alone: a pointer-down, a move with the button held, a
    release, a key and the two buttons leave it as it is. *)
Theorem mouse_position_written_by_motion (e : event) (self : PointTraceEditor) :
  (mouse_x (step e self), mouse_y (step e self)) =
  match e with
  | Motion x y => (x, y)
  | _ => (mouse_x self, mouse_y self)
  end.
Proof.
  destruct e as [x y | x y | x y | x y | keysym | |].
  - unfold step, callback, on_canvas_click.
    destruct (find_point_at_position self x y) as [i |]; [reflexivity|].
    destruct (find_line_at_position_total self x y) as [[k |] Hl];
      rewrite Hl; reflexivity.
  - unfold step, callback, on_canvas_drag.
    destruct (dragging self); [|reflexivity].
    destruct (drag_point_index self) as [i |]; [|reflexivity].
    unfold list_setitem.
    destruct (i <? List.length (points self))%nat; reflexivity.
  - unfold step, callback, on_canvas_release.
    destruct (dragging self); [|reflexivity].
    destruct (drag_point_index self) as [i |]; [|reflexivity].
    unfold list_setitem.
    destruct (i <? List.length (points self))%nat; reflexivity.
  - reflexivity.
  - unfold step, callback, on_key_press.
    destruct (String.eqb (lower keysym) "d"); [|reflexivity].
    unfold delete_point_at_mouse.
    destruct (find_point_at_position self (mouse_x self) (mouse_y self))
      as [i |]; [|reflexivity].
    unfold list_pop. destruct (nth_error (points self) i); reflexivity.
  - reflexivity.
  - unfold step, callback, copy_coordinates.
    destruct (points self); reflexivity.
Qed.

(* ------------------------------------------------------------------ *)
(** * Exceptions *)

Lemma delete_point_at_mouse_total (self : PointTraceEditor) :
  exists self', delete_point_at_mouse self = Ok self'.
Proof.
  unfold delete_point_at_mouse.
  destruct (find_point_at_position self (mouse_x self) (mouse_y self))
    as [i |] eqn:Hp; [|eexists; reflexivity].
  apply find_point_at_position_bound in Hp.
  destruct (list_pop_Ok (points self) i Hp) as (p & pts & Hpop & _).
  rewrite Hpop. eexists. reflexivity.
Qed.

Lemma callback_Ok (e : event) (self : PointTraceEditor) :
  drag_consistent self -> drag_index_valid self ->
  exists self', callback e self = Ok self'.
Proof.
  intros Hc Hv. destruct e as [x y | x y | x y | x y | keysym | |];
    cbn [callback].
  - destruct (find_point_at_position self x y) as [i |] eqn:Hp.
    + destruct (on_canvas_click_drag self x y i Hp) as (s' & H & _).
      exists s'. exact H.
    + destruct (find_line_at_position_total self x y) as [[k |] Hl].
      * destruct (on_canvas_click_insert self x y k Hp Hl) as (s' & H & _).
        exists s'. exact H.
      * destruct (on_canvas_click_append self x y Hp Hl) as (s' & H & _).
        exists s'. exact H.
  - destruct (dragging self) eqn:Hd;
      [|exists self; apply on_canvas_drag_idle; exact Hd].
    destruct (drag_point_index self) as [i |] eqn:Hi.
    + destruct (on_canvas_drag_moves self x y i Hd Hi (Hv i Hi)) as (s' & H & _).
      exists s'. exact H.
    + exists self. unfold on_canvas_drag. rewrite Hd, Hi. reflexivity.
  - destruct (dragging self) eqn:Hd;
      [|exists self; apply on_canvas_release_idle; exact Hd].
    destruct (drag_point_index self) as [i |] eqn:Hi.
    + destruct (on_canvas_release_drops self x y i Hd Hi (Hv i Hi))
        as (s' & H & _).
      exists s'. exact H.
    + exfalso. apply (proj1 Hc Hd). exact Hi.
  - eexists. reflexivity.
  - unfold on_key_press.
    destruct (String.eqb (lower keysym) "d"); [|eexists; reflexivity].
    destruct (delete_point_at_mouse_total self) as [s' H]. exists s'. exact H.
  - eexists. reflexivity.
  - eexists. reflexivity.
Qed.

(** X9: as long as the [d] key and "Clear All Points" are used only while
    no drag is in progress, no callback raises an exception. *)
Theorem idle_edits_never_raise (self : PointTraceEditor) (e : event) :
  reachable_idle_edits self -> exists self', callback e self = Ok self'.
Proof.
  intros H. apply callback_Ok.
  - apply reachable_drag_consistent, reachable_idle_edits_reachable. exact H.
  - apply reachable_idle_edits_valid. exact H.
Qed.

(** The release of the pointer held on a point. *)
Lemma idle_edits_never_raise_witness :
  reachable_idle_edits held_point /\
  exists self', callback (ButtonRelease1 60 60) held_point = Ok self'.
Proof.
  split; [exact held_point_idle_edits|].
  exact (idle_edits_never_raise held_point (ButtonRelease1 60 60)
           held_point_idle_edits).
Defined.

(* ------------------------------------------------------------------ *)
(** * What a redraw puts on the canvas *)

Lemma is_dragged_S (self : PointTraceEditor) (k : nat) :
  is_dragged self (S k) = highlighted self k.
Proof.
  unfold is_dragged, highlighted. rewrite Nat.sub_succ, Nat.sub_0_r. reflexivity.
Qed.

Lemma draw_lines_length (pts : list point) :
  List.length (draw_lines pts) = (List.length pts - 1)%nat.
Proof.
  induction pts as [| [x1 y1] rest IH]; [reflexivity|].
  destruct rest as [| [x2 y2] rest']; [reflexivity|].
  cbn [draw_lines List.length] in IH |- *. rewrite IH. lia.
Qed.

Lemma draw_lines_nth (pts : list point) :
  forall k x1 y1 x2 y2,
    nth_error pts k = Some (x1, y1) -> nth_error pts (S k) = Some (x2, y2) ->
    nth_error (draw_lines pts) k
    = Some (create_line x1 y1 x2 y2 point_line_colour 2).
Proof.
  induction pts as [| [a1 b1] rest IH]; intros k x1 y1 x2 y2 H1 H2.
  - destruct k; discriminate.
  - destruct rest as [| [a2 b2] rest'].
    + destruct k; discriminate.
    + destruct k as [| k].
      * cbn in H1, H2. injection H1 as <- <-. injection H2 as <- <-. reflexivity.
      * cbn [draw_lines nth_error]. cbn [nth_error] in H1, H2.
        exact (IH k x1 y1 x2 y2 H1 H2).
Qed.

Lemma draw_points_from_length (self : PointTraceEditor) (pts : list point) :
  forall i, List.length (draw_points_from self i pts) = (2 * List.length pts)%nat.
Proof.
  induction pts as [| [x y] rest IH]; intros i; [reflexivity|].
  cbn [draw_points_from List.length]. rewrite IH. lia.
Qed.

Lemma draw_points_from_nth (self : PointTraceEditor) (pts : list point) :
  forall o k x y,
    nth_error pts k = Some (x, y) ->
    nth_error (draw_points_from self (S o) pts) (2 * k)
    = Some (create_oval (x - 3) (y - 3) (x + 3) (y + 3)
              (if highlighted self (o + k) then "red" else "black") "black"
              (if highlighted self (o + k) then 2 else 1)%Z) /\
    nth_error (draw_points_from self (S o) pts) (2 * k + 1)
    = Some (create_text (x + 10) (y - 10) (str (Z.of_nat (o + k + 1))) "black"
              ("Arial", 8%Z, "bold")).
Proof.
  induction pts as [| [a b] rest IH]; intros o k x y Hk.
  - destruct k; discriminate.
  - destruct k as [| k].
    + cbn in Hk. injection Hk as <- <-.
      cbn [draw_points_from Nat.mul Nat.add nth_error].
      rewrite is_dragged_S, !Nat.add_0_r.
      replace (S o) with (o + 1)%nat by lia. split; reflexivity.
    + cbn [nth_error] in Hk.
      replace (2 * S k)%nat with (S (S (2 * k))) by lia.
      replace (S (S (2 * k)) + 1)%nat with (S (S (2 * k + 1))) by lia.
      cbn [draw_points_from nth_error].
      destruct (IH (S o) k x y Hk) as [Hoval Htext].
      replace (o + S k)%nat with (S o + k)%nat by lia.
      split; assumption.
Qed.

Lemma redraw_canvas_app (self : PointTraceEditor) :
  redraw_canvas self
  = (draw_lines (points self) ++ draw_points_from self 1 (points self))%list.
Proof.
  unfold redraw_canvas.
  destruct (points self) as [| [x1 y1] [| [x2 y2] rest]]; reflexivity.
Qed.

(** X10: a redraw creates, for a trace of [n] points, first the [n - 1]
    lines, line [k] from point [k] to point [k + 1], then for each point in
    trace order its circle of radius 3 and its label [k + 1] at (x + 10,
    y - 10); the circle is red with a border of 2 for the dragged point
    and black with a border of 1 for every other. *)
Theorem redraw_canvas_items (self : PointTraceEditor) :
  let pts := points self in
  let n := List.length pts in
  List.length (redraw_canvas self) = (n - 1 + 2 * n)%nat /\
  (forall k x1 y1 x2 y2,
      nth_error pts k = Some (x1, y1) -> nth_error pts (S k) = Some (x2, y2) ->
      nth_error (redraw_canvas self) k
      = Some (create_line x1 y1 x2 y2 "black" 2)) /\
  (forall k x y,
      nth_error pts k = Some (x, y) ->
      nth_error (redraw_canvas self) (n - 1 + 2 * k)
      = Some (create_oval (x - 3) (y - 3) (x + 3) (y + 3)
                (if highlighted self k then "red" else "black") "black"
                (if highlighted self k then 2 else 1)%Z) /\
      nth_error (redraw_canvas self) (n - 1 + 2 * k + 1)
      = Some (create_text (x + 10) (y - 10) (str (Z.of_nat (k + 1))) "black"
                ("Arial", 8%Z, "bold"))).
Proof.
  cbv zeta. rewrite redraw_canvas_app. split; [|split].
  - rewrite length_app, draw_lines_length, draw_points_from_length. reflexivity.
  - intros k x1 y1 x2 y2 H1 H2.
    assert (Hk : (k < List.length (draw_lines (points self)))%nat).
    { rewrite draw_lines_length.
      assert (S k < List.length (points self))%nat
        by (apply nth_error_Some; congruence).
      lia. }
    rewrite nth_error_app1 by exact Hk.
    exact (draw_lines_nth _ _ _ _ _ _ H1 H2).
  - intros k x y Hk.
    destruct (draw_points_from_nth self (points self) 0 k x y Hk)
      as [Hoval Htext].
    cbn [Nat.add] in Hoval, Htext. split.
    + rewrite nth_error_app2 by (rewrite draw_lines_length; lia).
      rewrite draw_lines_length.
      replace (List.length (points self) - 1 + 2 * k
               - (List.length (points self) - 1))%nat with (2 * k)%nat by lia.
      exact Hoval.
    + rewrite nth_error_app2 by (rewrite draw_lines_length; lia).
      rewrite draw_lines_length.
      replace (List.length (points self) - 1 + 2 * k + 1
               - (List.length (points self) - 1))%nat with (2 * k + 1)%nat by lia.
      exact Htext.
Qed.

Lemma draw_lines_no_red (pts : list point) :
  filter is_red_oval (draw_lines pts) = [].
Proof.
  induction pts as [| [x1 y1] rest IH]; [reflexivity|].
  destruct rest as [| [x2 y2] rest']; [reflexivity|].
  cbn [draw_lines filter is_red_oval]. exact IH.
Qed.

Lemma draw_points_from_red (self : PointTraceEditor) (pts : list point) :
  forall o,
    List.length (filter is_red_oval (draw_points_from self (S o) pts))
    = if dragging self
         && match drag_point_index self with
            | Some j => (o <=? j)%nat && (j <? o + List.length pts)%nat
            | None => false
            end
      then 1%nat else 0%nat.
Proof.
  induction pts as [| [x y] rest IH]; intros o.
  - cbn [draw_points_from filter List.length].
    destruct (dragging self); [|reflexivity].
    destruct (drag_point_index self) as [j |]; [|reflexivity].
    cbn [andb]. destruct (Nat.leb_spec o j); [|reflexivity].
    destruct (Nat.ltb_spec j (o + 0)); [lia | reflexivity].
  - cbn [draw_points_from filter is_red_oval List.length].
    rewrite is_dragged_S. specialize (IH (S o)). unfold highlighted.
    destruct (dragging self); [|exact IH].
    destruct (drag_point_index self) as [j |]; [|exact IH].
    cbn [andb] in IH |- *.
    destruct (Nat.eqb_spec j o) as [-> | Hne].
    + cbn [String.eqb Ascii.eqb Bool.eqb point_dragging_colour List.length].
      rewrite IH.
      destruct (Nat.leb_spec (S o) o); [lia|].
      destruct (Nat.leb_spec o o); [|lia].
      destruct (Nat.ltb_spec o (o + S (List.length rest))); [reflexivity | lia].
    + cbn [String.eqb Ascii.eqb Bool.eqb point_colour point_dragging_colour].
      rewrite IH.
      destruct (Nat.leb_spec (S o) j), (Nat.leb_spec o j); try lia;
        [|reflexivity].
      destruct (Nat.ltb_spec j (S o + List.length rest)),
        (Nat.ltb_spec j (o + S (List.length rest))); try lia; reflexivity.
Qed.

(** X11: a redraw draws at most one circle in the dragging colour:
    exactly one while a drag is in progress on an index of the trace, none
    when no drag is in progress or the drag index is past the end. *)
Theorem redraw_canvas_highlight (self : PointTraceEditor) :
  List.length (filter is_red_oval (redraw_canvas self))
  = if dragging self
       && match drag_point_index self with
          | Some j => (j <? List.length (points self))%nat
          | None => false
          end
    then 1%nat else 0%nat.
Proof.
  rewrite redraw_canvas_app, filter_app, draw_lines_no_red.
  cbn [app]. rewrite (draw_points_from_red self (points self) 0).
  destruct (dragging self); [|reflexivity].
  destruct (drag_point_index self) as [j |]; reflexivity.
Qed.

(* ------------------------------------------------------------------ *)
(** * The widgets along a session *)

Lemma draw_points_from_ext (s s' : PointTraceEditor) (pts : list point) :
  dragging s = dragging s' -> drag_point_index s = drag_point_index s' ->
  forall i, draw_points_from s i pts = draw_points_from s' i pts.
Proof.
  intros Hd Hi. induction pts as [| [x y] rest IH]; intros i; [reflexivity|].
  cbn [draw_points_from]. unfold is_dragged. rewrite Hd, Hi, IH. reflexivity.
Qed.

(** A redraw reads the trace and the drag state, and nothing else. *)
Lemma redraw_canvas_ext (s s' : PointTraceEditor) :
  points s = points s' -> dragging s = dragging s' ->
  drag_point_index s = drag_point_index s' ->
  redraw_canvas s = redraw_canvas s'.
Proof.
  intros Hp Hd Hi. unfold redraw_canvas.
  rewrite Hp, (draw_points_from_ext s s' _ Hd Hi). reflexivity.
Qed.

(** [update_terminal] reads the trace, and nothing else. *)
Lemma update_terminal_ext (s s' : PointTraceEditor) :
  points s = points s' -> update_terminal s = update_terminal s'.
Proof. intros Hp. unfold update_terminal. rewrite Hp. reflexivity. Qed.

Lemma redraw_canvas_oval (self : PointTraceEditor) (k : nat) (x y : Z) :
  nth_error (points self) k = Some (x, y) ->
  In (create_oval (x - 3) (y - 3) (x + 3) (y + 3)
        (if highlighted self k then "red" else "black") "black"
        (if highlighted self k then 2 else 1)%Z)
     (redraw_canvas self).
Proof.
  intros Hk. rewrite redraw_canvas_app. apply in_or_app. right.
  destruct (draw_points_from_nth self (points self) 0 k x y Hk) as [Hoval _].
  exact (nth_error_In _ _ Hoval).
Qed.

Lemma copy_coordinates_frame (self : PointTraceEditor) :
  points (fst (copy_coordinates self)) = points self /\
  dragging (fst (copy_coordinates self)) = dragging self.
Proof.
  unfold copy_coordinates.
  destruct (points self) eqn:E; cbn; rewrite ?E; split; reflexivity.
Qed.

(** The editor of the window moves as the editor alone does. *)
Lemma window_step_editor (e : event) (w : Window.t) :
  Window.editor (Window.step e w) = step e (Window.editor w).
Proof.
  destruct w as [self cv tt].
  destruct e as [x y | x y | x y | x y | keysym | |];
    unfold Window.step, step, Window.callback, callback; cbn [Window.editor].
  - unfold Window.on_canvas_click, on_canvas_click; cbn [Window.editor].
    destruct (find_point_at_position self x y) as [i |]; [reflexivity|].
    destruct (find_line_at_position_total self x y) as [[k |] Hl];
      rewrite Hl; reflexivity.
  - unfold Window.on_canvas_drag, on_canvas_drag; cbn [Window.editor].
    destruct (dragging self); [|reflexivity].
    destruct (drag_point_index self) as [i |]; [|reflexivity].
    unfold list_setitem.
    destruct (i <? List.length (points self))%nat; reflexivity.
  - unfold Window.on_canvas_release, on_canvas_release; cbn [Window.editor].
    destruct (dragging self); [|reflexivity].
    destruct (drag_point_index self) as [i |]; [|reflexivity].
    unfold list_setitem.
    destruct (i <? List.length (points self))%nat; reflexivity.
  - reflexivity.
  - unfold Window.on_key_press, on_key_press.
    destruct (String.eqb (lower keysym) "d"); [|reflexivity].
    unfold Window.delete_point_at_mouse, delete_point_at_mouse;
      cbn [Window.editor].
    destruct (find_point_at_position self (mouse_x self) (mouse_y self))
      as [i |]; [|reflexivity].
    unfold list_pop. destruct (nth_error (points self) i); reflexivity.
  - reflexivity.
  - reflexivity.
Qed.

Lemma window_step_current (e : event) (w : Window.t) :
  terminal_current w -> canvas_current w ->
  terminal_current (Window.step e w) /\ canvas_current (Window.step e w).
Proof.
  unfold terminal_current, canvas_current.
  destruct w as [self cv tt]. cbn [Window.editor Window.canvas Window.terminal_text].
  intros Ht (d0 & i0 & Hc).
  assert (Hsame : forall self',
             points self' = points self -> dragging self' = dragging self ->
             (dragging self' = false -> tt = update_terminal self') /\
             exists d i, cv = redraw_canvas (set_drag self' d i)).
  { intros self' Hp Hd. split.
    - intros Hidle. rewrite (update_terminal_ext self' self Hp).
      apply Ht. congruence.
    - exists d0, i0. rewrite Hc. apply redraw_canvas_ext; [cbn; congruence | reflexivity..]. }
  assert (Hfresh : forall s_drawn self',
             points self' = points s_drawn ->
             (dragging self' = false ->
              update_terminal s_drawn = update_terminal self') /\
             exists d i,
               redraw_canvas s_drawn = redraw_canvas (set_drag self' d i)).
  { intros s_drawn self' Hp. split.
    - intros _. apply update_terminal_ext. congruence.
    - exists (dragging s_drawn), (drag_point_index s_drawn).
      apply redraw_canvas_ext; [cbn; congruence | reflexivity..]. }
  destruct e as [x y | x y | x y | x y | keysym | |];
    unfold Window.step, Window.callback.
  - unfold Window.on_canvas_click; cbn [Window.editor].
    destruct (find_point_at_position self x y) as [i |].
    + cbn [Window.editor Window.canvas Window.terminal_text Window.with_editor].
      split; [intros H; discriminate H|].
      exists d0, i0. rewrite Hc. apply redraw_canvas_ext; reflexivity.
    + destruct (find_line_at_position_total self x y) as [[k |] Hl];
        rewrite Hl; cbn [bind]; apply Hfresh; reflexivity.
  - unfold Window.on_canvas_drag; cbn [Window.editor].
    destruct (dragging self) eqn:Hd; [|apply Hsame; [reflexivity | exact Hd]].
    destruct (drag_point_index self) as [i |]; [|apply Hsame; [reflexivity | exact Hd]].
    unfold list_setitem.
    destruct (i <? List.length (points self))%nat; cbn [bind];
      [|apply Hsame; [reflexivity | exact Hd]].
    cbn [Window.editor Window.canvas Window.terminal_text Window.with_editor
         Window.redraw].
    split; [intros H; cbn in H; congruence|].
    exists (dragging self), (drag_point_index self).
    apply redraw_canvas_ext; reflexivity.
  - unfold Window.on_canvas_release; cbn [Window.editor].
    destruct (dragging self) eqn:Hd; [|apply Hsame; [reflexivity | exact Hd]].
    destruct (drag_point_index self) as [i |]; [|apply Hsame; [reflexivity | exact Hd]].
    unfold list_setitem.
    destruct (i <? List.length (points self))%nat; cbn [bind];
      [|apply Hsame; [reflexivity | exact Hd]].
    apply Hfresh. reflexivity.
  - apply Hsame; reflexivity.
  - unfold Window.on_key_press.
    destruct (String.eqb (lower keysym) "d"); [|apply Hsame; reflexivity].
    unfold Window.delete_point_at_mouse; cbn [Window.editor].
    destruct (find_point_at_position self (mouse_x self) (mouse_y self))
      as [i |]; [|apply Hsame; reflexivity].
    unfold list_pop. destruct (nth_error (points self) i) as [p |]; cbn [bind];
      [|apply Hsame; reflexivity].
    apply Hfresh. reflexivity.
  - apply Hfresh. reflexivity.
  - cbn [Window.copy_coordinates fst Window.editor].
    apply Hsame; apply copy_coordinates_frame.
Qed.

Lemma window_reachable_current (w : Window.t) :
  Window.reachable w -> terminal_current w /\ canvas_current w.
Proof.
  induction 1 as [| e w _ [IHt IHc]].
  - split; [intros _; reflexivity|]. exists false, None. reflexivity.
  - apply window_step_current; assumption.
Qed.

Lemma window_reachable_mainloop (es : list event) :
  forall w, Window.reachable w -> Window.reachable (Window.mainloop es w).
Proof.
  unfold Window.mainloop. induction es as [| e es IH]; intros w H; cbn [fold_left].
  - exact H.
  - apply IH. apply Window.reachable_step. exact H.
Qed.

Lemma held_window_reachable : Window.reachable held_window.
Proof. apply window_reachable_mainloop, Window.reachable_init. Defined.

Lemma dropped_window_reachable : Window.reachable dropped_window.
Proof. apply window_reachable_mainloop, held_window_reachable. Defined.

(** During a drag the text widget lags: the point is at (70,70) and the
    text still lists it at (50,50). *)
Lemma terminal_lags_during_drag :
  let w := Window.step (B1Motion 70 70) held_window in
  Window.reachable w /\
  points (Window.editor w) = [(70, 70)%Z] /\
  Window.terminal_text w = update_terminal (set_points init [(50, 50)%Z]) /\
  Window.terminal_text w <> update_terminal (Window.editor w).
Proof.
  cbv zeta. split; [apply Window.reachable_step, held_window_reachable|].
  split; [reflexivity|]. split; [reflexivity|].
  intros H. vm_compute in H. discriminate H.
Qed.

(** X12: whenever no drag is in progress, the text widget shows the
    listing [update_terminal] makes of the current trace.  A move of a
    drag never writes the text widget, which therefore lags until the
    release. *)
Theorem terminal_current_when_idle (w : Window.t) :
  Window.reachable w ->
  (dragging (Window.editor w) = false ->
   Window.terminal_text w = update_terminal (Window.editor w)) /\
  (forall x y,
      Window.terminal_text (Window.step (B1Motion x y) w)
      = Window.terminal_text w).
Proof.
  intros H. split; [exact (proj1 (window_reachable_current w H))|].
  intros x y. destruct w as [self cv tt].
  unfold Window.step, Window.callback, Window.on_canvas_drag; cbn [Window.editor].
  destruct (dragging self); [|reflexivity].
  destruct (drag_point_index self) as [i |]; [|reflexivity].
  unfold list_setitem.
  destruct (i <? List.length (points self))%nat; reflexivity.
Qed.

(** The text widget after a point was dragged and dropped. *)
Lemma terminal_current_when_idle_witness :
  Window.reachable dropped_window /\
  dragging (Window.editor dropped_window) = false /\
  Window.terminal_text dropped_window
  = update_terminal (Window.editor dropped_window).
Proof.
  split; [exact dropped_window_reachable|]. split; [reflexivity|].
  exact (proj1 (terminal_current_when_idle dropped_window
                  dropped_window_reachable) eq_refl).
Defined.

(** X13: the canvas always shows the current trace: its items are those
    of a redraw of the trace as it is now, for some drag state, so only
    the highlight of a point can lag. *)
Theorem canvas_shows_current_trace (w : Window.t) :
  Window.reachable w ->
  exists d i,
    Window.canvas w = redraw_canvas (set_drag (Window.editor w) d i).
Proof. intros H. exact (proj2 (window_reachable_current w H)). Qed.

(** The canvas during a drag. *)
Lemma canvas_shows_current_trace_witness :
  Window.reachable held_window /\
  exists d i,
    Window.canvas held_window
    = redraw_canvas (set_drag (Window.editor held_window) d i).
Proof.
  split; [exact held_window_reachable|].
  exact (canvas_shows_current_trace held_window held_window_reachable).
Defined.

(** X14: the release redraws before it clears the drag state: after it
    no drag is in progress, and the canvas still shows the dropped point
    as the dragged one, in red with a border of 2. *)
Theorem release_leaves_highlight
    (w : Window.t) (rx ry : Z) (i : nat) :
  dragging (Window.editor w) = true ->
  drag_point_index (Window.editor w) = Some i ->
  (i < List.length (points (Window.editor w)))%nat ->
  exists w',
    Window.on_canvas_release w rx ry = Ok w' /\
    dragging (Window.editor w') = false /\
    drag_point_index (Window.editor w') = None /\
    Window.canvas w'
    = redraw_canvas (set_drag (Window.editor w') true (Some i)) /\
    In (create_oval (rx - 3) (ry - 3) (rx + 3) (ry + 3) "red" "black" 2)
       (Window.canvas w').
Proof.
  destruct w as [self cv tt]. cbn [Window.editor]. intros Hd Hi Hlt.
  destruct (list_setitem_Ok (points self) i (rx, ry) Hlt)
    as (pts & Hset & _ & Hat & _).
  unfold Window.on_canvas_release; cbn [Window.editor].
  rewrite Hd, Hi, Hset. cbn [bind]. eexists. split; [reflexivity|].
  cbn [Window.editor Window.canvas Window.with_editor Window.redraw
       Window.update].
  split; [reflexivity|]. split; [reflexivity|]. split.
  - apply redraw_canvas_ext; [reflexivity | exact Hd | exact Hi].
  - pose proof (redraw_canvas_oval (set_points self pts) i rx ry Hat) as Hin.
    unfold highlighted in Hin. cbn [dragging drag_point_index set_points] in Hin.
    rewrite Hd, Hi, Nat.eqb_refl in Hin. exact Hin.
Qed.

(** The release of the point held at (50,50), at (80,80). *)
Lemma release_leaves_highlight_witness :
  dragging (Window.editor held_window) = true /\
  drag_point_index (Window.editor held_window) = Some 0%nat /\
  (0 < List.length (points (Window.editor held_window)))%nat /\
  exists w',
    Window.on_canvas_release held_window 80 80 = Ok w' /\
    dragging (Window.editor w') = false /\
    In (create_oval 77 77 83 83 "red" "black" 2) (Window.canvas w').
Proof.
  split; [reflexivity|]. split; [reflexivity|]. split; [apply Nat.le_refl|].
  destruct (release_leaves_highlight held_window 80 80 0
              eq_refl eq_refl (Nat.le_refl 1))
    as (w' & Hrun & Hd & _ & _ & Hin).
  exists w'. split; [exact Hrun|]. split; [exact Hd | exact Hin].
Defined.

(* ------------------------------------------------------------------ *)
(** * The copied text determines the trace *)

Lemma string_app_assoc (a b c : string) : (a ++ b) ++ c = a ++ (b ++ c).
Proof. induction a as [| ch a IH]; cbn; [reflexivity | rewrite IH; reflexivity]. Qed.

Lemma string_app_nil_r (a : string) : a ++ "" = a.
Proof. induction a as [| ch a IH]; cbn; [reflexivity | rewrite IH; reflexivity]. Qed.

Lemma string_of_uint_int_chars (d : Decimal.uint) :
  all_chars int_char (NilEmpty.string_of_uint d) = true.
Proof. induction d; cbn [NilEmpty.string_of_uint all_chars]; try rewrite IHd; reflexivity. Qed.

Lemma str_int_chars (z : Z) : all_chars int_char (str z) = true.
Proof.
  unfold str, NilZero.string_of_int, NilZero.string_of_uint.
  destruct (Z.to_int z) as [d | d].
  - destruct d; try reflexivity; apply string_of_uint_int_chars.
  - cbn [all_chars]. apply andb_true_iff. split; [reflexivity|].
    destruct d; try reflexivity; apply string_of_uint_int_chars.
Qed.

(** Two texts that agree and start with ints, each followed by a character
    that is no part of an int, agree on the int, the character and the
    rest. *)
Lemma split_at_delimiter (s1 : string) :
  forall s2 c1 c2 r1 r2,
    all_chars int_char s1 = true -> all_chars int_char s2 = true ->
    int_char c1 = false -> int_char c2 = false ->
    s1 ++ String c1 r1 = s2 ++ String c2 r2 ->
    s1 = s2 /\ c1 = c2 /\ r1 = r2.
Proof.
  induction s1 as [| a s1 IH]; intros s2 c1 c2 r1 r2 H1 H2 Hc1 Hc2 Heq.
  - destruct s2 as [| b s2]; cbn in Heq.
    + injection Heq as -> ->. repeat split.
    + injection Heq as -> _. cbn [all_chars] in H2.
      apply andb_true_iff in H2 as [H2 _]. congruence.
  - destruct s2 as [| b s2]; cbn in Heq.
    + injection Heq as -> _. cbn [all_chars] in H1.
      apply andb_true_iff in H1 as [H1 _]. congruence.
    + injection Heq as -> Heq. cbn [all_chars] in H1, H2.
      apply andb_true_iff in H1 as [_ H1]. apply andb_true_iff in H2 as [_ H2].
      destruct (IH s2 c1 c2 r1 r2 H1 H2 Hc1 Hc2 Heq) as (-> & -> & ->).
      repeat split.
Qed.

Lemma str_inj (a b : Z) : str a = str b -> a = b.
Proof.
  intros H. pose proof (int_of_str_str a) as Ha. rewrite H, int_of_str_str in Ha.
  congruence.
Qed.

Lemma format_point_app_inj (p q : point) (t t' : string) :
  format_point p ++ t = format_point q ++ t' -> p = q /\ t = t'.
Proof.
  destruct p as [x y], q as [x' y']. unfold format_point; cbn [fst snd].
  rewrite !string_app_assoc. cbn [append]. intros [= H].
  apply split_at_delimiter in H;
    [|apply str_int_chars | apply str_int_chars | reflexivity | reflexivity].
  destruct H as (Hx & _ & H). injection H as Hrest.
  apply split_at_delimiter in Hrest;
    [|apply str_int_chars | apply str_int_chars | reflexivity | reflexivity].
  destruct Hrest as (Hy & _ & Ht).
  apply str_inj in Hx, Hy. subst x' y'. split; [reflexivity | exact Ht].
Qed.

Lemma join_format_cons (p : point) (rest : list point) :
  join ", " (map format_point (p :: rest)) = format_point p ++ after_first rest.
Proof.
  destruct rest as [| q rest]; cbn [map join after_first].
  - symmetry. apply string_app_nil_r.
  - reflexivity.
Qed.

Lemma join_format_inj (a : list point) :
  forall b,
    join ", " (map format_point a) = join ", " (map format_point b) -> a = b.
Proof.
  induction a as [| p a IH]; intros [| q b] H.
  - reflexivity.
  - rewrite join_format_cons in H. destruct q. discriminate H.
  - rewrite join_format_cons in H. destruct p. discriminate H.
  - rewrite !join_format_cons in H.
    apply format_point_app_inj in H as [-> H]. f_equal.
    destruct a as [| p' a], b as [| q' b]; cbn [after_first] in H.
    + reflexivity.
    + discriminate H.
    + discriminate H.
    + injection H as H. apply IH. exact H.
Qed.

(** X15: the text on the clipboard determines the trace: two editors
    whose [copy_coordinates] copy the same text hold the same points, in
    the same order. *)
Theorem copied_text_determines_trace
    (self self' : PointTraceEditor) (text : string) :
  snd (copy_coordinates self) = pyperclip_copy text ->
  snd (copy_coordinates self') = pyperclip_copy text ->
  points self = points self'.
Proof.
  unfold copy_coordinates. intros H H'.
  destruct (points self) as [| p a] eqn:E; [discriminate H|].
  destruct (points self') as [| q b] eqn:E'; [discriminate H'|].
  cbn [snd] in H, H'. rewrite <- E, <- E'.
  apply join_format_inj. congruence.
Qed.

(** The trace [(1,2), (3,4)] set at once and built in a session give the
    same text, and hold the same points. *)
Lemma copied_text_determines_trace_witness :
  snd (copy_coordinates trace_1234_set) = pyperclip_copy "(1, 2), (3, 4)" /\
  snd (copy_coordinates trace_1234_session) = pyperclip_copy "(1, 2), (3, 4)" /\
  points trace_1234_set = points trace_1234_session.
Proof.
  split; [reflexivity|]. split; [reflexivity|].
  exact (copied_text_determines_trace trace_1234_set trace_1234_session
           "(1, 2), (3, 4)" eq_refl eq_refl).
Defined.

(* ------------------------------------------------------------------ *)
(** * The text widget and the clipboard *)

(** X16: the text widget reads "No points placed." exactly for the empty
    trace, where the copy button copies nothing; for any other trace its
    last line is "Coordinates: " followed by the very text the copy button
    puts on the clipboard. *)
Theorem terminal_shows_copied_text (self : PointTraceEditor) :
  (points self = [] <-> update_terminal self = "No points placed.") /\
  (forall text,
      snd (copy_coordinates self) = pyperclip_copy text ->
      exists listing,
        update_terminal self
        = listing ++ "Coordinates: " ++ text ++ newline ++ newline).
Proof.
  unfold update_terminal, copy_coordinates. split.
  - destruct (points self) as [| p rest]; split; try reflexivity; discriminate.
  - intros text H. destruct (points self) as [| p rest]; [discriminate H|].
    cbn [snd] in H. injection H as <-.
    eexists. rewrite <- !string_app_assoc. reflexivity.
Qed.

(* ------------------------------------------------------------------ *)
(** * The click disc on the integers *)

Lemma within_click_radius_disc (x y px py : Z) :
  within_click_radius x y (px, py)
  <-> ((x - px) ^ 2 + (y - py) ^ 2 <= 64)%Z.
Proof.
  rewrite <- click_test_spec. unfold root_le_int, distance, pow_half.
  cbn [radicand]. change (0 <=? click_radius)%Z with true. cbn [andb].
  rewrite Qle_bool_iff, <- Zle_Qle. reflexivity.
Qed.



(* ------------------------------------------------------------------ *)
(** * Placing a point, then grabbing or deleting it *)

Lemma within_click_radius_self (x y : Z) : within_click_radius x y (x, y).
Proof. apply within_click_radius_disc. rewrite !Z.sub_diag. cbn. lia. Qed.

(** Where a click that hits no point puts the new one. *)
Lemma on_canvas_click_places (self : PointTraceEditor) (x y : Z) :
  find_point_at_position self x y = None ->
  exists self' idx,
    on_canvas_click self x y = Ok self' /\
    (idx <= List.length (points self))%nat /\
    points self' = list_insert (points self) idx (x, y) /\
    dragging self' = dragging self /\
    drag_point_index self' = drag_point_index self /\
    mouse_x self' = mouse_x self /\ mouse_y self' = mouse_y self.
Proof.
  intros Hp. destruct (find_line_at_position_total self x y) as [[k |] Hl].
  - destruct (on_canvas_click_insert self x y k Hp Hl)
      as (self' & Hrun & Hpts & Hd & Hi & Hmx & Hmy).
    exists self', (k + 1)%nat. split; [exact Hrun|]. split.
    + apply find_line_at_position_Some in Hl.
      destruct Hl as [(a & b & _ & Hb & _) _].
      assert (S k < List.length (points self))%nat
        by (apply nth_error_Some; congruence).
      lia.
    + repeat split; assumption.
  - destruct (on_canvas_click_append self x y Hp Hl)
      as (self' & Hrun & Hpts & Hd & Hi & Hmx & Hmy).
    exists self', (List.length (points self)). split; [exact Hrun|].
    split; [apply Nat.le_refl|]. split.
    + rewrite Hpts. unfold list_insert.
      rewrite firstn_all, skipn_all. reflexivity.
    + repeat split; assumption.
Qed.

(** X18: a point can be grabbed where it was placed: after a click that
    inserts or appends a point, a second click at the same position starts
    a drag of exactly that new point. *)
Theorem placed_point_is_grabbed (self : PointTraceEditor) (x y : Z) :
  find_point_at_position self x y = None ->
  exists placed grabbed idx,
    on_canvas_click self x y = Ok placed /\
    nth_error (points placed) idx = Some (x, y) /\
    S (List.length (points self)) = List.length (points placed) /\
    on_canvas_click placed x y = Ok grabbed /\
    dragging grabbed = true /\ drag_point_index grabbed = Some idx /\
    points grabbed = points placed.
Proof.
  intros Hp.
  destruct (on_canvas_click_places self x y Hp)
    as (placed & idx & Hrun & Hidx & Hpts & _).
  assert (Hfind : find_point_at_position placed x y = Some idx).
  { apply find_point_at_position_Some. rewrite Hpts. split.
    - exists (x, y). split; [apply list_insert_at; exact Hidx|].
      apply within_click_radius_self.
    - intros j Hj (p & Hj' & Hw).
      rewrite list_insert_before in Hj' by assumption.
      apply (proj1 (find_point_at_position_None self x y) Hp j).
      exists p. split; assumption. }
  destruct (on_canvas_click_drag placed x y idx Hfind)
    as (grabbed & Hrun' & Hpts' & Hd & Hi & _).
  exists placed, grabbed, idx. split; [exact Hrun|].
  split; [rewrite Hpts; apply list_insert_at; exact Hidx|].
  split; [rewrite Hpts, list_insert_length; reflexivity|].
  repeat split; assumption.
Qed.

(** The first click of a session at (50,50), and a second one there. *)
Lemma placed_point_is_grabbed_witness :
  find_point_at_position init 50 50 = None /\
  exists placed grabbed idx,
    on_canvas_click init 50 50 = Ok placed /\
    nth_error (points placed) idx = Some (50, 50)%Z /\
    on_canvas_click placed 50 50 = Ok grabbed /\
    drag_point_index grabbed = Some idx.
Proof.
  split; [reflexivity|].
  destruct (placed_point_is_grabbed init 50 50 eq_refl)
    as (placed & grabbed & idx & Hrun & Hat & _ & Hrun' & _ & Hi & _).
  exists placed, grabbed, idx. repeat split; assumption.
Defined.

Lemma list_pop_insert {A : Type} (l : list A) (v : A) :
  forall i,
    (i <= List.length l)%nat ->
    list_pop (list_insert l i v) i = Ok (v, l).
Proof.
  intros i Hi. unfold list_pop. rewrite (list_insert_at i l v Hi).
  do 2 f_equal. unfold list_insert. revert l Hi.
  induction i as [| i IH]; intros l Hi.
  - reflexivity.
  - destruct l as [| a l]; cbn in Hi; [lia|].
    cbn. f_equal. apply IH. lia.
Qed.

(** X19: placing a point and deleting it again gives the trace back: a
    click at the mouse position that hits no point, followed by the [d]
    key, leaves the points as they were. *)
Theorem place_then_delete_restores (self : PointTraceEditor) :
  find_point_at_position self (mouse_x self) (mouse_y self) = None ->
  exists self',
    run [Button1 (mouse_x self) (mouse_y self); Key "d"] self = Ok self' /\
    points self' = points self /\
    dragging self' = dragging self /\
    drag_point_index self' = drag_point_index self.
Proof.
  intros Hp.
  destruct (on_canvas_click_places self _ _ Hp)
    as (placed & idx & Hrun & Hidx & Hpts & Hd & Hi & Hmx & Hmy).
  assert (Hfind : find_point_at_position placed (mouse_x placed) (mouse_y placed)
                  = Some idx).
  { rewrite Hmx, Hmy. apply find_point_at_position_Some. rewrite Hpts. split.
    - exists (mouse_x self, mouse_y self).
      split; [apply list_insert_at; exact Hidx|].
      apply within_click_radius_self.
    - intros j Hj (p & Hj' & Hw).
      rewrite list_insert_before in Hj' by assumption.
      apply (proj1 (find_point_at_position_None self _ _) Hp j).
      exists p. split; assumption. }
  cbn [run callback]. rewrite Hrun. cbn [bind]. unfold on_key_press.
  change (lower "d") with "d". cbn [String.eqb Ascii.eqb Bool.eqb].
  unfold delete_point_at_mouse. rewrite Hfind, Hpts.
  rewrite (list_pop_insert _ _ _ Hidx). cbn [bind].
  eexists. split; [reflexivity|]. cbn. repeat split; assumption.
Qed.

(** A point placed at the mouse position (50,50) of a fresh editor and
    deleted again. *)
Lemma place_then_delete_restores_witness :
  let self := step (Motion 50 50) init in
  find_point_at_position self (mouse_x self) (mouse_y self) = None /\
  exists self',
    run [Button1 (mouse_x self) (mouse_y self); Key "d"] self = Ok self' /\
    points self' = points self.
Proof.
  cbv zeta. split; [reflexivity|].
  destruct (place_then_delete_restores (step (Motion 50 50) init) eq_refl)
    as (self' & Hrun & Hpts & _).
  exists self'. split; assumption.
Defined.
